(** * ebook-mcp: [get_pdf_local_path]

    A shallow embedding of [src/ebook_mcp/tools/get_pdf_local_path.py] and
    the properties of its cache-fetch routine: URL validation, the derivation
    of the cache file name, the fast path, the streamed download, the atomic
    publish and the cleanup of the staging file.

    Python values are modelled as follows.
    - A [str] is the list of its code points ([pystr]); [bytes] is a list of
      [Byte.byte].
    - The file system is a finite map from paths to the contents of the
      regular files at them, together with the log of the I/O operations
      performed so far.
    - Everything the routine gets from its surroundings (the temporary
      directory, the answer of the remote server, the failures of system
      calls) is a field of an environment record [env].
    - Python exceptions are the [Raise] results of a state and error monad. *)

From Stdlib Require Import ZArith NArith List Lia Bool.
From Stdlib.Strings Require Import String Ascii Byte.
From stdpp Require Import base option list gmap finite.
From Equations Require Import Equations.
Import ListNotations.

Local Open Scope Z_scope.

(** ** Strings and bytes *)

(** A Python [str]: the sequence of its Unicode code points. *)
Definition pystr : Type := list N.

Definition bytes : Type := list byte.

(** A literal of the source, given by its ASCII characters. *)
Definition lit (s : string) : pystr :=
  List.map N_of_ascii (list_ascii_of_string s).

Definition byte_of_N (n : N) : byte :=
  match Byte.of_N (n mod 256) with
  | Some b => b
  | None => Byte.x00
  end.

Definition Z_of_byte (b : byte) : Z := Z.of_N (Byte.to_N b).

(** [str.encode("utf-8")] for one code point; [None] is the
    [UnicodeEncodeError] that the strict codec raises on a surrogate
    (U+D800..U+DFFF). Code points above U+10FFFF do not occur in a [str]. *)
Definition utf8_encode_char (c : N) : option bytes :=
  if (c <? 0x80)%N then Some [byte_of_N c]
  else if (c <? 0x800)%N then
    Some [byte_of_N (N.lor 0xC0 (N.shiftr c 6));
          byte_of_N (N.lor 0x80 (N.land c 0x3F))]
  else if ((0xD800 <=? c) && (c <=? 0xDFFF))%N then None
  else if (c <? 0x10000)%N then
    Some [byte_of_N (N.lor 0xE0 (N.shiftr c 12));
          byte_of_N (N.lor 0x80 (N.land (N.shiftr c 6) 0x3F));
          byte_of_N (N.lor 0x80 (N.land c 0x3F))]
  else if (c <? 0x110000)%N then
    Some [byte_of_N (N.lor 0xF0 (N.shiftr c 18));
          byte_of_N (N.lor 0x80 (N.land (N.shiftr c 12) 0x3F));
          byte_of_N (N.lor 0x80 (N.land (N.shiftr c 6) 0x3F));
          byte_of_N (N.lor 0x80 (N.land c 0x3F))]
  else None.

Fixpoint utf8_encode (s : pystr) : option bytes :=
  match s with
  | [] => Some []
  | c :: s' =>
      match utf8_encode_char c, utf8_encode s' with
      | Some b, Some bs => Some (b ++ bs)
      | _, _ => None
      end
  end.

(** ** SHA-256 (FIPS 180-4), as computed by [hashlib.sha256]

    Words are 32-bit, held in [Z] with the wrap-around written out. *)
Module SHA256.

Definition wrap (x : Z) : Z := x mod 2 ^ 32.

Definition add32 (x y : Z) : Z := wrap (x + y).

Definition rotr (n x : Z) : Z :=
  Z.lor (Z.shiftr x n) (wrap (Z.shiftl x (32 - n))).

Definition not32 (x : Z) : Z := Z.lxor x 0xFFFFFFFF.

Definition Ch (x y z : Z) : Z := Z.lxor (Z.land x y) (Z.land (not32 x) z).

Definition Maj (x y z : Z) : Z :=
  Z.lxor (Z.lxor (Z.land x y) (Z.land x z)) (Z.land y z).

Definition Sigma0 (x : Z) : Z :=
  Z.lxor (Z.lxor (rotr 2 x) (rotr 13 x)) (rotr 22 x).

Definition Sigma1 (x : Z) : Z :=
  Z.lxor (Z.lxor (rotr 6 x) (rotr 11 x)) (rotr 25 x).

Definition sigma0 (x : Z) : Z :=
  Z.lxor (Z.lxor (rotr 7 x) (rotr 18 x)) (Z.shiftr x 3).

Definition sigma1 (x : Z) : Z :=
  Z.lxor (Z.lxor (rotr 17 x) (rotr 19 x)) (Z.shiftr x 10).

(** The constants are given as FIPS 180-4 defines them (sections 4.2.2 and
    5.3.3): the first 32 bits of the fractional parts of the cube roots of
    the first 64 primes, and of the square roots of the first 8. *)
Definition is_prime (n : Z) : bool :=
  (1 <? n) && forallb (fun d => negb (n mod d =? 0))
                      (List.map Z.of_nat (List.seq 2 (Z.to_nat n - 2))).

Definition primes : list Z :=
  List.filter is_prime (List.map Z.of_nat (List.seq 2 310)).

(** The integer cube root, bit by bit from bit [b - 1] down. *)
Fixpoint cbrt_bits (b : nat) (n r : Z) : Z :=
  match b with
  | O => r
  | S b' =>
      let r' := r + 2 ^ Z.of_nat b' in
      cbrt_bits b' n (if r' * r' * r' <=? n then r' else r)
  end.

Definition K : list Z :=
  Eval vm_compute in
    List.map (fun p => wrap (cbrt_bits 36 (p * 2 ^ 96) 0)) primes.

Definition H0 : list Z :=
  Eval vm_compute in
    List.map (fun p => wrap (Z.sqrt (p * 2 ^ 64))) (firstn 8 primes).

(** Big-endian bytes of a number, [n] of them. *)
Fixpoint be_bytes (n : nat) (x : Z) : list Z :=
  match n with
  | O => []
  | S n' => (Z.shiftr x (8 * Z.of_nat n')) mod 256 :: be_bytes n' x
  end.

(** The message followed by the bit 1, zeros up to 56 modulo 64 bytes, and
    the length in bits on 64 bits. *)
Definition pad (msg : list Z) : list Z :=
  let len := Z.of_nat (List.length msg) in
  msg ++ [0x80] ++ List.repeat 0 (Z.to_nat ((55 - len) mod 64))
      ++ be_bytes 8 (8 * len).

Fixpoint be_words (n : nat) (bs : list Z) : list Z :=
  match n with
  | O => []
  | S n' =>
      match bs with
      | b0 :: b1 :: b2 :: b3 :: bs' =>
          (b0 * 2 ^ 24 + b1 * 2 ^ 16 + b2 * 2 ^ 8 + b3) :: be_words n' bs'
      | _ => []
      end
  end.

(** The message schedule, most recent word first: [ws] holds
    W(t-1), W(t-2), ..., W(0). *)
Fixpoint schedule (n : nat) (ws : list Z) : list Z :=
  match n with
  | O => ws
  | S n' =>
      let w := add32 (add32 (sigma1 (nth 1 ws 0)) (nth 6 ws 0))
                     (add32 (sigma0 (nth 14 ws 0)) (nth 15 ws 0)) in
      schedule n' (w :: ws)
  end.

Definition round (st : list Z) (kw : Z * Z) : list Z :=
  match st with
  | [a; b; c; d; e; f; g; h] =>
      let t1 := add32 (add32 (add32 h (Sigma1 e)) (add32 (Ch e f g) (fst kw)))
                      (snd kw) in
      let t2 := add32 (Sigma0 a) (Maj a b c) in
      [add32 t1 t2; a; b; c; add32 d t1; e; f; g]
  | _ => st
  end.

Definition zip_add (xs ys : list Z) : list Z :=
  List.map (fun p => add32 (fst p) (snd p)) (List.combine xs ys).

Definition compress (h : list Z) (block : list Z) : list Z :=
  let w := List.rev (schedule 48 (List.rev (be_words 16 block))) in
  zip_add h (List.fold_left round (List.combine K w) h).

Fixpoint blocks (n : nat) (h : list Z) (bs : list Z) : list Z :=
  match n with
  | O => h
  | S n' => blocks n' (compress h (firstn 64 bs)) (skipn 64 bs)
  end.

(** The eight 32-bit words of the hash value. *)
Definition words (msg : bytes) : list Z :=
  let p := pad (List.map Z_of_byte msg) in
  blocks (List.length p / 64) H0 p.

(** [hashlib.sha256(msg).digest()] *)
Definition digest (msg : bytes) : bytes :=
  List.map (fun b => byte_of_N (Z.to_N b)) (List.flat_map (be_bytes 4) (words msg)).

End SHA256.

(** [bytes.hex()]: two lowercase hexadecimal digits for each byte. *)
Definition hex_digit (n : N) : N :=
  if (n <? 10)%N then (48 + n)%N else (87 + n)%N.

Definition hex_byte (b : byte) : pystr :=
  let n := Byte.to_N b in [hex_digit (n / 16)%N; hex_digit (n mod 16)%N].

Definition hex (bs : bytes) : pystr := List.flat_map hex_byte bs.

(** [hashlib.sha256(msg).hexdigest()] *)
Definition hexdigest (msg : bytes) : pystr := hex (SHA256.digest msg).

Definition ascii_bytes (s : string) : bytes :=
  List.map byte_of_ascii (list_ascii_of_string s).

(** ** [urllib.parse.urlparse]: the scheme

    Of the parsed URL the routine uses the scheme only. [urlsplit] strips
    leading C0 control characters and spaces, removes tabs and line breaks,
    and takes as scheme what precedes the first colon when that is not
    empty, starts with an ASCII letter and consists of [scheme_chars];
    the scheme is lowercased. *)

Definition whatwg_c0_control_or_space (c : N) : bool := (c <=? 0x20)%N.

Definition unsafe_url_byte (c : N) : bool :=
  ((c =? 9) || (c =? 13) || (c =? 10))%N.

Definition is_ascii_upper (c : N) : bool := ((65 <=? c) && (c <=? 90))%N.
Definition is_ascii_lower (c : N) : bool := ((97 <=? c) && (c <=? 122))%N.
Definition is_ascii_digit (c : N) : bool := ((48 <=? c) && (c <=? 57))%N.
Definition is_ascii_alpha (c : N) : bool := is_ascii_upper c || is_ascii_lower c.

Definition scheme_chars (c : N) : bool :=
  is_ascii_lower c || is_ascii_upper c || is_ascii_digit c
  || (c =? 43)%N || (c =? 45)%N || (c =? 46)%N.

(** [str.lower] on the characters it is applied to here: [urlsplit]
    lowercases a prefix that consists of [scheme_chars], so only the ASCII
    letters change. *)
Definition lower_char (c : N) : N := if is_ascii_upper c then (c + 32)%N else c.
Definition lower (s : pystr) : pystr := List.map lower_char s.

Fixpoint lstrip (p : N -> bool) (s : pystr) : pystr :=
  match s with
  | c :: s' => if p c then lstrip p s' else s
  | [] => []
  end.

(** [s.find(c)]: the index of the first occurrence. *)
Fixpoint str_find (c : N) (s : pystr) : option nat :=
  match s with
  | [] => None
  | d :: s' => if (d =? c)%N then Some O else option_map S (str_find c s')
  end.

Definition colon : N := 58.

(** The scheme that [urlsplit] finds, and what follows it. *)
Definition urlsplit_scheme (url : pystr) : pystr * pystr :=
  let url := lstrip whatwg_c0_control_or_space url in
  let url := List.filter (fun c => negb (unsafe_url_byte c)) url in
  match str_find colon url with
  | Some (S i) =>
      if is_ascii_alpha (hd 0%N url) && forallb scheme_chars (firstn (S i) url)
      then (lower (firstn (S i) url), skipn (S (S i)) url)
      else ([], url)
  | _ => ([], url)
  end.

(** ** [os.path.join] (posixpath), for two components *)

Definition sep : N := 47.

Definition startswith_sep (s : pystr) : bool :=
  match s with c :: _ => (c =? sep)%N | [] => false end.

Definition endswith_sep (s : pystr) : bool := startswith_sep (List.rev s).

Definition path_join (a b : pystr) : pystr :=
  if startswith_sep b then b
  else if (match a with [] => true | _ => false end) || endswith_sep a
       then a ++ b
       else a ++ [sep] ++ b.

(** ** Exceptions *)

(** What [urllib.request.urlopen] and [resp.read] raise. The last two are
    raised by [http.client] before anything is sent: [UnicodeEncodeError]
    when the request line cannot be encoded as ASCII ([_encode_request]), and
    [http.client.InvalidURL] when the request target holds a space or a
    control character. *)
Inductive transport_error : Type :=
| URLError (reason : pystr)
| HTTPError (code : Z)
| ConnectionReset
| IncompleteRead
| RequestEncodeError
| InvalidURL.

(** The exceptions of a call, by the place that raises them: [ValueError] is
    the one of [urlparse] and of the scheme check, [UnicodeEncodeError] the
    one of [url.encode], [TransportError] what [urlopen] and [resp.read]
    raise, [OSError] the failure of a file operation. The classes that
    Python gives them are [is_ValueError] and [is_UnicodeEncodeError]. *)
Inductive exn : Type :=
| ValueError (msg : pystr)
| UnicodeEncodeError
| TransportError (e : transport_error)
| OSError (errno : Z).



Definition EEXIST : Z := 17.
Definition ENOENT : Z := 2.

(** ** The surroundings of a call *)

(** The body that the server sends, and how the stream ends: at the end of
    [resp_body] a read returns the empty [bytes] ([resp_fail = None]) or
    raises. *)
Record response : Type := {
  resp_body : bytes;
  resp_fail : option transport_error }.

Inductive syscall : Type :=
| SysOpen (p : pystr)
| SysWrite (p : pystr) (offset : nat)
| SysClose (p : pystr)
| SysReplace (src dst : pystr)
| SysRemove (p : pystr).

Record env : Type := {
  (** [tempfile.gettempdir()] *)
  gettempdir : pystr;
  (** the checks of [urlsplit] on the network location, applied to what
      follows the scheme: [Some msg] is the [ValueError] that it raises *)
  netloc_error : pystr -> option pystr;
  (** [urllib.request.urlopen(url)] *)
  urlopen : pystr -> transport_error + response;
  (** the system calls that fail, with their [errno] *)
  os_fault : syscall -> option Z }.

Inductive open_mode : Type := mode_wb | mode_xb.

Inductive event : Type :=
| EvExists (p : pystr)
| EvUrlopen (url : pystr)
| EvRead (n : nat)
| EvOpen (p : pystr) (m : open_mode)
| EvWrite (p : pystr) (chunk : bytes)
| EvClose (p : pystr)
| EvReplace (src dst : pystr)
| EvRemove (p : pystr).

Definition is_network (ev : event) : bool :=
  match ev with EvUrlopen _ | EvRead _ => true | _ => false end.


(** The regular files, by path, and the I/O performed so far, oldest first. *)
Record world : Type := {
  files : gmap pystr bytes;
  events : list event }.

Definition log (ev : event) (w : world) : world :=
  {| files := files w; events := events w ++ [ev] |}.

Definition set_files (f : gmap pystr bytes) (w : world) : world :=
  {| files := f; events := events w |}.

(** ** Computations that do I/O and may raise *)

Inductive result (A : Type) : Type :=
| Ok (a : A)
| Raise (e : exn).
Arguments Ok {A} a.
Arguments Raise {A} e.

Definition M (A : Type) : Type := world -> result A * world.

Definition ret {A} (a : A) : M A := fun w => (Ok a, w).

Definition raise {A} (e : exn) : M A := fun w => (Raise e, w).

Definition bind {A B} (c : M A) (k : A -> M B) : M B :=
  fun w => match c w with
           | (Ok a, w') => k a w'
           | (Raise e, w') => (Raise e, w')
           end.

Notation "'let*' x ':=' c 'in' k" := (bind c (fun x => k))
  (at level 10, x name, c at level 100, k at level 200).
Notation "c1 '>>' c2" := (bind c1 (fun _ => c2))
  (at level 65, right associativity).

(** [try: body finally: fin]: [fin] runs however [body] ends, and an
    exception of [fin] replaces the outcome of [body]. *)
Definition try_finally {A} (body : M A) (fin : M unit) : M A :=
  fun w => let (r, w1) := body w in
           match fin w1 with
           | (Ok _, w2) => (r, w2)
           | (Raise e, w2) => (Raise e, w2)
           end.

(** [try: body except OSError: pass] *)
Definition try_except_OSError (body : M unit) : M unit :=
  fun w => match body w with
           | (Raise (OSError _), w1) => (Ok tt, w1)
           | rw => rw
           end.

(** ** System calls *)

(** [os.path.exists(p)] *)
Definition os_path_exists (p : pystr) : M bool :=
  fun w => (Ok (bool_decide (is_Some (files w !! p))), log (EvExists p) w).

(** [open(p, mode)]: ["wb"] creates the file or truncates it, ["xb"]
    creates it and fails if it exists. *)
Definition py_open (E : env) (p : pystr) (m : open_mode) : M unit :=
  fun w =>
    let w := log (EvOpen p m) w in
    match os_fault E (SysOpen p) with
    | Some errno => (Raise (OSError errno), w)
    | None =>
        match m, files w !! p with
        | mode_xb, Some _ => (Raise (OSError EEXIST), w)
        | _, _ => (Ok tt, set_files (<[p := []]> (files w)) w)
        end
    end.

(** [out.write(chunk)] on the file opened at [p] *)
Definition file_write (E : env) (p : pystr) (chunk : bytes) : M unit :=
  fun w =>
    let w := log (EvWrite p chunk) w in
    let old := default [] (files w !! p) in
    match os_fault E (SysWrite p (length old)) with
    | Some errno => (Raise (OSError errno), w)
    | None => (Ok tt, set_files (<[p := old ++ chunk]> (files w)) w)
    end.

(** [out.close()], which the [with] statement calls *)
Definition file_close (E : env) (p : pystr) : M unit :=
  fun w =>
    let w := log (EvClose p) w in
    match os_fault E (SysClose p) with
    | Some errno => (Raise (OSError errno), w)
    | None => (Ok tt, w)
    end.

(** [os.replace(src, dst)] *)
Definition os_replace (E : env) (src dst : pystr) : M unit :=
  fun w =>
    let w := log (EvReplace src dst) w in
    match os_fault E (SysReplace src dst), files w !! src with
    | Some errno, _ => (Raise (OSError errno), w)
    | None, None => (Raise (OSError ENOENT), w)
    | None, Some content =>
        (Ok tt, set_files (<[dst := content]> (delete src (files w))) w)
    end.

(** [os.remove(p)] *)
Definition os_remove (E : env) (p : pystr) : M unit :=
  fun w =>
    let w := log (EvRemove p) w in
    match os_fault E (SysRemove p), files w !! p with
    | Some errno, _ => (Raise (OSError errno), w)
    | None, None => (Raise (OSError ENOENT), w)
    | None, Some _ => (Ok tt, set_files (delete p (files w)) w)
    end.

(** [urllib.request.urlopen(url)]: the response, or the exception that
    the call raises, be it a failure of the network or a refusal of the URL
    by [http.client]. *)
Definition py_urlopen (E : env) (url : pystr) : M response :=
  fun w =>
    let w := log (EvUrlopen url) w in
    match urlopen E url with
    | inl e => (Raise (TransportError e), w)
    | inr resp => (Ok resp, w)
    end.

(** [resp.read(n)] on what is left of the stream: at most [n] bytes, none
    at the end. *)
Definition resp_read (n : nat) (resp : response)
  : transport_error + bytes * response :=
  match resp_body resp, resp_fail resp with
  | [], Some e => inl e
  | body, fail =>
      inr (firstn n body, {| resp_body := skipn n body; resp_fail := fail |})
  end.

Definition py_read (n : nat) (resp : response) : M (bytes * response) :=
  fun w =>
    let w := log (EvRead n) w in
    match resp_read n resp with
    | inl e => (Raise (TransportError e), w)
    | inr x => (Ok x, w)
    end.

Definition lift {A} (r : result A) : M A := fun w => (r, w).

(** ** The routine *)

Record ParseResult : Type := {
  scheme : pystr;
  after_scheme : pystr }.

(** [urlparse(url)]: the parsed URL, or the [ValueError] of a network
    location that [urlsplit] refuses. *)
Definition urlparse (E : env) (url : pystr) : result ParseResult :=
  let (s, rest) := urlsplit_scheme url in
  match netloc_error E rest with
  | Some msg => Raise (ValueError msg)
  | None => Ok {| scheme := s; after_scheme := rest |}
  end.

(** [url.encode("utf-8")] *)
Definition str_encode (url : pystr) : result bytes :=
  match utf8_encode url with
  | Some b => Ok b
  | None => Raise UnicodeEncodeError
  end.

(** [scheme in {"http", "https"}] *)
Definition http_or_https (s : pystr) : bool :=
  bool_decide (s = lit "http") || bool_decide (s = lit "https").

(** The message [f"Unsupported URL scheme: {parsed.scheme!r}"]; a scheme is
    empty or made of [scheme_chars], so its [repr] is the scheme between
    single quotes. *)
Definition unsupported_scheme (s : pystr) : pystr :=
  lit "Unsupported URL scheme: '" ++ s ++ lit "'".

Definition chunk_size : nat := Z.to_nat 8192.

Definition inspect {A} (a : A) : {b : A | a = b} := exist _ a eq_refl.

(** [while chunk: out.write(chunk); chunk = resp.read(8192)] *)
Equations? while_chunk (E : env) (out : pystr) (chunk : bytes)
    (resp : response) (w : world) : result unit * world
    by wf (length chunk + length (resp_body resp))%nat lt :=
while_chunk E out [] resp w := (Ok tt, w);
while_chunk E out (b :: bs) resp w with file_write E out (b :: bs) w := {
  | (Raise e, w1) := (Raise e, w1);
  | (Ok _, w1) with inspect (resp_read chunk_size resp) := {
      | exist _ (inl e) _ :=
          (Raise (TransportError e), log (EvRead chunk_size) w1);
      | exist _ (inr (chunk', resp')) Heq :=
          while_chunk E out chunk' resp' (log (EvRead chunk_size) w1) } }.
Proof.
  unfold resp_read in Heq.
  destruct (resp_body resp) as [|c body] eqn:Hbody.
  - destruct (resp_fail resp); [discriminate|].
    injection Heq as <- <-. simpl. lia.
  - assert (Hsplit : inr (firstn chunk_size (c :: body),
                {| resp_body := skipn chunk_size (c :: body);
                   resp_fail := resp_fail resp |})
              = (inr (chunk', resp') : transport_error + bytes * response)).
    { destruct (resp_fail resp); exact Heq. }
    injection Hsplit as <- <-.
    cbn [resp_body].
    cbn [length]. rewrite length_take, length_drop. lia.
Qed.

(** The body of the [with] statement: the first read, then the loop. *)
Definition stream (E : env) (resp : response) (out : pystr) : M unit :=
  let* cr := py_read chunk_size resp in
  while_chunk E out (fst cr) (snd cr).

(** The [try] block: [with urlopen(url) as resp, open(tmppath, "wb") as out],
    then [os.replace]. Leaving the [with] statement closes the file, also
    when its body raised. *)
Definition download (E : env) (url tmppath fullpath : pystr) : M unit :=
  (let* resp := py_urlopen E url in
   py_open E tmppath mode_wb >>
   try_finally (stream E resp tmppath) (file_close E tmppath)) >>
  os_replace E tmppath fullpath.

(** The [finally] block. *)
Definition cleanup (E : env) (tmppath fullpath : pystr) : M unit :=
  let* staged := os_path_exists tmppath in
  if staged then
    let* published := os_path_exists fullpath in
    if negb published then try_except_OSError (os_remove E tmppath)
    else ret tt
  else ret tt.

Definition get_pdf_local_path (E : env) (url : pystr) : M pystr :=
  let* parsed := lift (urlparse E url) in
  if negb (http_or_https (scheme parsed))
  then raise (ValueError (unsupported_scheme (scheme parsed)))
  else
    let* data := lift (str_encode url) in
    let digest := hexdigest data in
    let filename := digest ++ lit ".pdf" in
    let tmpdir := gettempdir E in
    let fullpath := path_join tmpdir filename in
    let* found := os_path_exists fullpath in
    if found then ret fullpath
    else
      let tmppath := fullpath ++ lit ".part" in
      try_finally (download E url tmppath fullpath)
                  (cleanup E tmppath fullpath) >>
      ret fullpath.

(** ** What the claims speak about *)

Definition scheme_of (url : pystr) : pystr := fst (urlsplit_scheme url).

(** A URL that passes the validation: [urlparse] accepts it and its scheme
    is [http] or [https]. *)
Definition valid_url (E : env) (url : pystr) : Prop :=
  netloc_error E (snd (urlsplit_scheme url)) = None /\
  http_or_https (scheme_of url) = true.

(** The name of the cache file for the encoded URL, and its path. *)
Definition cache_filename (data : bytes) : pystr := hexdigest data ++ lit ".pdf".

Definition cache_path (E : env) (data : bytes) : pystr :=
  path_join (gettempdir E) (cache_filename data).

Definition staging_path (E : env) (data : bytes) : pystr :=
  cache_path E data ++ lit ".part".

(** The exceptions of the download and of the file operations. *)
Definition io_error (e : exn) : Prop :=
  match e with
  | TransportError _ | OSError _ => True
  | _ => False
  end.

(** The events of a loop that copies the chunks [cs]. *)
Definition copy_events (out : pystr) (cs : list bytes) : list event :=
  List.flat_map (fun c => [EvWrite out c; EvRead chunk_size]) cs.

(** The chunks of a stream: none is empty, none is longer than the size
    asked for. *)
Definition bounded_chunks (cs : list bytes) : Prop :=
  Forall (fun c => c <> [] /\ (length c <= chunk_size)%nat) cs.

(** Where the exception of a failed download comes from. *)
Definition download_failure (E : env) (url tmp full : pystr) (e : exn) : Prop :=
  match e with
  | TransportError te =>
      urlopen E url = inl te \/
      exists resp, urlopen E url = inr resp /\ resp_fail resp = Some te
  | OSError errno =>
      os_fault E (SysOpen tmp) = Some errno \/
      (exists off, os_fault E (SysWrite tmp off) = Some errno) \/
      os_fault E (SysClose tmp) = Some errno \/
      os_fault E (SysReplace tmp full) = Some errno
  | _ => False
  end.

(** [urlparse] raises. *)
Definition parse_fails (E : env) (url : pystr) : Prop :=
  exists msg, urlparse E url = Raise (ValueError msg).

(** The state of the cache for one key at the end of a call, as the data
    model asks for it: the final file exists, or neither the final file nor
    the staging file does. *)
Definition cache_consistent (fs : gmap pystr bytes) (full tmp : pystr) : Prop :=
  is_Some (fs !! full) \/ (fs !! full = None /\ fs !! tmp = None).

(** The final file of the files [fs'] is complete: it is the file that was
    there before the call, or the whole body of a stream that ended well. *)
Definition complete_entry (E : env) (url : pystr) (w : world)
    (fs' : gmap pystr bytes) (full : pystr) : Prop :=
  (exists c, files w !! full = Some c /\ fs' !! full = Some c) \/
  (files w !! full = None /\
   exists resp, urlopen E url = inr resp /\ resp_fail resp = None /\
                fs' !! full = Some (resp_body resp)).

(** No file operation on the staging file fails. *)
Definition staging_ok (E : env) (tmp : pystr) : Prop :=
  os_fault E (SysOpen tmp) = None /\
  (forall off, os_fault E (SysWrite tmp off) = None) /\
  os_fault E (SysClose tmp) = None.

(** The download breaks with the error [te]: [urlopen] raises it, or the
    response does after its body while the file operations on the staging
    file succeed. *)
Definition stream_breaks (E : env) (url tmp : pystr) (te : transport_error)
  : Prop :=
  urlopen E url = inl te \/
  exists resp, urlopen E url = inr resp /\ resp_fail resp = Some te /\
               staging_ok E tmp.

(** The staging file is opened for exclusive creation (mode ["xb"]). *)
Definition opened_exclusive (tmp : pystr) (evs : list event) : Prop :=
  In (EvOpen tmp mode_xb) evs.

(** ** Inputs for the examples *)

Definition url_doc : pystr := lit "https://example.test/doc.pdf".
Definition data_doc : bytes := ascii_bytes "https://example.test/doc.pdf".
Definition body_doc : bytes := ascii_bytes "%PDF-1.4 example".

Definition no_fault : syscall -> option Z := fun _ => None.

(** [os.remove] fails with EACCES. *)
Definition remove_fault : syscall -> option Z :=
  fun s => match s with SysRemove _ => Some 13 | _ => None end.

(** The server sends the whole document. *)
Definition env_ok : env := {|
  gettempdir := lit "/tmp";
  netloc_error := fun _ => None;
  urlopen := fun _ => inr {| resp_body := body_doc; resp_fail := None |};
  os_fault := no_fault |}.

(** The connection is reset after the first bytes of the document. *)
Definition env_reset (fault : syscall -> option Z) : env := {|
  gettempdir := lit "/tmp";
  netloc_error := fun _ => None;
  urlopen := fun _ => inr {| resp_body := ascii_bytes "%PDF-1.4 ex";
                             resp_fail := Some ConnectionReset |};
  os_fault := fault |}.

Definition world_empty : world := {| files := ∅; events := [] |}.

(** The document is in the cache. *)
Definition world_cached : world :=
  {| files := {[ cache_path env_ok data_doc := body_doc ]}; events := [] |}.

(** An earlier call left a staging file. *)
Definition world_leftover : world :=
  {| files := {[ staging_path env_ok data_doc := ascii_bytes "leftover of an earlier call" ]};
     events := [] |}.

(** A lowercase hexadecimal digit: [0-9a-f]. *)
Definition is_lower_hex (c : N) : bool :=
  ((48 <=? c) && (c <=? 57) || (97 <=? c) && (c <=? 102))%N.

(** The eight words of a hash value as one number, the first word in the
    most significant position. *)
Definition word_num (ws : list Z) : Z :=
  List.fold_left (fun acc w => acc * 2 ^ 32 + w) ws 0.

(** Any two URLs with an accepted scheme that differ as strings have
    different cache file names. *)
Definition filenames_injective : Prop :=
  forall (u1 u2 : pystr) (d1 d2 : bytes),
    http_or_https (scheme_of u1) = true ->
    http_or_https (scheme_of u2) = true ->
    utf8_encode u1 = Some d1 -> utf8_encode u2 = Some d2 ->
    u1 <> u2 -> cache_filename d1 <> cache_filename d2.

(** The URLs [http://x/], [http://x/a], [http://x/aa], ... and their
    encodings. *)
Definition url_a (n : nat) : pystr := lit "http://x/" ++ List.repeat 97%N n.
Definition data_a (n : nat) : bytes :=
  ascii_bytes "http://x/" ++ List.repeat "a"%byte n.

(** ** What the further properties speak about *)


(** [bytes.decode("utf-8")] for the first character of an encoded string:
    the code point and the bytes that follow it. *)
Definition utf8_decode_char (bs : bytes) : option (N * bytes) :=
  match bs with
  | [] => None
  | b0 :: r0 =>
      let n0 := Byte.to_N b0 in
      if (n0 <? 0x80)%N then Some (n0, r0)
      else if (n0 <? 0xE0)%N then
        match r0 with
        | b1 :: r1 =>
            Some (N.lor (N.shiftl (N.land n0 0x1F) 6)
                        (N.land (Byte.to_N b1) 0x3F), r1)
        | _ => None
        end
      else if (n0 <? 0xF0)%N then
        match r0 with
        | b1 :: b2 :: r2 =>
            Some (N.lor (N.shiftl (N.land n0 0x0F) 12)
                    (N.lor (N.shiftl (N.land (Byte.to_N b1) 0x3F) 6)
                           (N.land (Byte.to_N b2) 0x3F)), r2)
        | _ => None
        end
      else
        match r0 with
        | b1 :: b2 :: b3 :: r3 =>
            Some (N.lor (N.shiftl (N.land n0 0x07) 18)
                    (N.lor (N.shiftl (N.land (Byte.to_N b1) 0x3F) 12)
                       (N.lor (N.shiftl (N.land (Byte.to_N b2) 0x3F) 6)
                              (N.land (Byte.to_N b3) 0x3F))), r3)
        | _ => None
        end
  end.

(** What [os.path.join] puts before a relative second component: the
    directory, followed by a separator unless it is empty or ends with one. *)
Definition dir_prefix (d : pystr) : pystr :=
  if (match d with [] => true | _ => false end) || endswith_sep d
  then d else d ++ [sep].


(** A 32-bit word. *)
Definition word32 (x : Z) : Prop := 0 <= x < 2 ^ 32.

(** The server cannot be reached. *)
Definition env_down : env := {|
  gettempdir := lit "/tmp";
  netloc_error := fun _ => None;
  urlopen := fun _ => inl (URLError (lit "unreachable"));
  os_fault := no_fault |}.

(** The server sends the whole document; the system calls fail as [fault]
    says. *)
Definition env_fault (fault : syscall -> option Z) : env := {|
  gettempdir := lit "/tmp";
  netloc_error := fun _ => None;
  urlopen := fun _ => inr {| resp_body := body_doc; resp_fail := None |};
  os_fault := fault |}.

(** Closing a file fails with ENOSPC. *)
Definition close_fault : syscall -> option Z :=
  fun s => match s with SysClose _ => Some 28 | _ => None end.

(** [os.replace] fails with EACCES. *)
Definition replace_fault : syscall -> option Z :=
  fun s => match s with SysReplace _ _ => Some 13 | _ => None end.

(** Writing to a file fails with ENOSPC. *)
Definition write_fault : syscall -> option Z :=
  fun s => match s with SysWrite _ _ => Some 28 | _ => None end.

(** Opening a file fails with EACCES. *)
Definition open_fault : syscall -> option Z :=
  fun s => match s with SysOpen _ => Some 13 | _ => None end.

(** The server sends an empty body. *)
Definition env_empty_body : env := {|
  gettempdir := lit "/tmp";
  netloc_error := fun _ => None;
  urlopen := fun _ => inr {| resp_body := []; resp_fail := None |};
  os_fault := no_fault |}.

(** A file that is no part of the cache. *)
Definition world_notes : world :=
  {| files := {[ lit "/tmp/notes.txt" := ascii_bytes "kept" ]}; events := [] |}.





(** * Properties *)

(** ** SHA-256: test vectors *)

Example sha256_empty :
  hexdigest [] =
  lit "e3b0c44298fc1c149afbf4c8996fb92427ae41e4649b934ca495991b7852b855".
Proof. vm_compute. reflexivity. Qed.

Example sha256_abc :
  hexdigest (ascii_bytes "abc") =
  lit "ba7816bf8f01cfea414140de5dae2223b00361a396177a9cb410ff61f20015ad".
Proof. vm_compute. reflexivity. Qed.

Example sha256_two_blocks :
  hexdigest (List.repeat "a"%byte 200) =
  lit "c2a908d98f5df987ade41b5fce213067efbcc21ef2240212a41e54b5e7c28ae5".
Proof. vm_compute. reflexivity. Qed.

(** ** The routine, case by case *)

Lemma urlparse_ok E url :
  netloc_error E (snd (urlsplit_scheme url)) = None ->
  urlparse E url =
  Ok {| scheme := scheme_of url; after_scheme := snd (urlsplit_scheme url) |}.
Proof.
  unfold urlparse, scheme_of. destruct (urlsplit_scheme url) as [s rest].
  simpl. intros ->. reflexivity.
Qed.

Lemma urlparse_error E url msg :
  netloc_error E (snd (urlsplit_scheme url)) = Some msg ->
  urlparse E url = Raise (ValueError msg).
Proof.
  unfold urlparse. destruct (urlsplit_scheme url) as [s rest].
  simpl. intros ->. reflexivity.
Qed.

Lemma run_parse_error E url w msg :
  netloc_error E (snd (urlsplit_scheme url)) = Some msg ->
  get_pdf_local_path E url w = (Raise (ValueError msg), w).
Proof.
  intros H. unfold get_pdf_local_path, bind, lift.
  rewrite (urlparse_error _ _ _ H). reflexivity.
Qed.

Lemma run_scheme_error E url w :
  netloc_error E (snd (urlsplit_scheme url)) = None ->
  http_or_https (scheme_of url) = false ->
  get_pdf_local_path E url w =
  (Raise (ValueError (unsupported_scheme (scheme_of url))), w).
Proof.
  intros H Hs. unfold get_pdf_local_path, bind, lift.
  rewrite (urlparse_ok _ _ H). cbn [scheme]. rewrite Hs. reflexivity.
Qed.

Lemma run_encode_error E url w :
  valid_url E url -> utf8_encode url = None ->
  get_pdf_local_path E url w = (Raise UnicodeEncodeError, w).
Proof.
  intros [H Hs] Hu. unfold get_pdf_local_path, bind, lift.
  rewrite (urlparse_ok _ _ H). cbn [scheme]. rewrite Hs. cbn [negb].
  unfold str_encode. rewrite Hu. reflexivity.
Qed.

Lemma run_hit E url w data :
  valid_url E url -> utf8_encode url = Some data ->
  is_Some (files w !! cache_path E data) ->
  get_pdf_local_path E url w =
  (Ok (cache_path E data), log (EvExists (cache_path E data)) w).
Proof.
  intros [H Hs] Hu Hf. unfold get_pdf_local_path, bind, lift.
  rewrite (urlparse_ok _ _ H). cbn [scheme]. rewrite Hs. cbn [negb].
  unfold str_encode. rewrite Hu. unfold os_path_exists.
  fold (cache_filename data). fold (cache_path E data).
  rewrite bool_decide_eq_true_2 by exact Hf. reflexivity.
Qed.

Lemma run_miss E url w data :
  valid_url E url -> utf8_encode url = Some data ->
  files w !! cache_path E data = None ->
  get_pdf_local_path E url w =
  (let (r, w') :=
     try_finally (download E url (staging_path E data) (cache_path E data))
                 (cleanup E (staging_path E data) (cache_path E data))
                 (log (EvExists (cache_path E data)) w) in
   (match r with Ok _ => Ok (cache_path E data) | Raise e => Raise e end, w')).
Proof.
  intros [H Hs] Hu Hf. unfold get_pdf_local_path, bind, lift.
  rewrite (urlparse_ok _ _ H). cbn [scheme]. rewrite Hs. cbn [negb].
  unfold str_encode. rewrite Hu. unfold os_path_exists.
  fold (cache_filename data). fold (cache_path E data).
  fold (staging_path E data).
  rewrite bool_decide_eq_false_2 by (rewrite Hf; apply is_Some_None).
  unfold ret.
  destruct (try_finally _ _ _) as [[[]|e] w']; reflexivity.
Qed.

(** ** The system calls *)

Lemma file_write_ok E p chunk w c0 :
  files w !! p = Some c0 ->
  os_fault E (SysWrite p (length c0)) = None ->
  file_write E p chunk w =
  (Ok tt, {| files := <[p := c0 ++ chunk]> (files w);
             events := events w ++ [EvWrite p chunk] |}).
Proof.
  intros Hp Hf. unfold file_write. cbn [log files events]. rewrite Hp.
  simpl. rewrite Hf. reflexivity.
Qed.

Lemma file_write_cases E p chunk w c0 :
  files w !! p = Some c0 ->
  (file_write E p chunk w =
     (Ok tt, {| files := <[p := c0 ++ chunk]> (files w);
                events := events w ++ [EvWrite p chunk] |})
   /\ os_fault E (SysWrite p (length c0)) = None)
  \/ (exists errno, os_fault E (SysWrite p (length c0)) = Some errno /\
        file_write E p chunk w = (Raise (OSError errno), log (EvWrite p chunk) w)).
Proof.
  intros Hp. unfold file_write. cbn [log files events]. rewrite Hp.
  simpl. destruct (os_fault E _) as [errno|].
  - right. exists errno. auto.
  - left. auto.
Qed.

Lemma chunk_size_pos : (0 < chunk_size)%nat.
Proof. unfold chunk_size. lia. Qed.

Lemma take_nil_inv {A} (n : nat) (l : list A) :
  (0 < n)%nat -> take n l = [] -> l = [].
Proof. destruct n, l; simpl; intros; try lia; congruence. Qed.

Lemma resp_read_inr n resp chunk resp' :
  resp_read n resp = inr (chunk, resp') ->
  chunk = take n (resp_body resp) /\
  resp_body resp' = drop n (resp_body resp) /\
  resp_fail resp' = resp_fail resp /\
  (resp_body resp = [] -> resp_fail resp = None).
Proof.
  unfold resp_read.
  destruct (resp_body resp) as [|c body], (resp_fail resp) as [e|];
    intros H; try discriminate; injection H as <- <-; repeat split; auto;
    discriminate.
Qed.

Lemma resp_read_inl n resp e :
  resp_read n resp = inl e ->
  resp_body resp = [] /\ resp_fail resp = Some e.
Proof.
  unfold resp_read.
  destruct (resp_body resp) as [|c body], (resp_fail resp) as [e'|];
    intros H; try discriminate; injection H as <-; auto.
Qed.



(** The copy loop appends to the staging file and touches nothing else.
    When it ends normally the whole stream has been appended, chunk by
    chunk; when it raises, the exception is the failure of the stream or
    of a write. *)
Lemma while_chunk_spec E out chunk resp w :
  forall c0, files w !! out = Some c0 ->
  (chunk = [] -> resp_body resp = [] /\ resp_fail resp = None) ->
  (length chunk <= chunk_size)%nat ->
  exists written evs,
    files (while_chunk E out chunk resp w).2 = <[out := c0 ++ written]> (files w) /\
    events (while_chunk E out chunk resp w).2 = events w ++ evs /\
    match (while_chunk E out chunk resp w).1 with
    | Ok _ =>
        written = chunk ++ resp_body resp /\ resp_fail resp = None /\
        exists cs, concat cs = written /\ bounded_chunks cs /\
                   evs = copy_events out cs
    | Raise (TransportError e) => resp_fail resp = Some e
    | Raise (OSError errno) =>
        exists off, os_fault E (SysWrite out off) = Some errno
    | Raise _ => False
    end.
Proof.
  funelim (while_chunk E out chunk resp w); intros c0 Hout Hready Hlen;
    try (match goal with
         | Hw : file_write E out ?c w = _ |- _ =>
             pose proof (file_write_cases E out c w c0 Hout) as Hcases;
             rewrite Hw in Hcases; clear Hw
         end;
         destruct Hcases as [[Hw _]|(errno & Hfault & Hw)];
         try discriminate Hw).
  - exists [], []. cbn [fst snd]. rewrite !app_nil_r.
    destruct (Hready eq_refl) as [Hb Hf]. rewrite Hb.
    split; [symmetry; apply insert_id; exact Hout|].
    split; [reflexivity|]. split; [reflexivity|]. split; [exact Hf|].
    exists []. repeat split. constructor.
  - inversion Hw; subst; clear Hw.
    exists [], [EvWrite out (b :: bs)]. cbn [fst snd log files events].
    rewrite app_nil_r.
    split; [symmetry; apply insert_id; exact Hout|].
    split; [reflexivity|]. eauto.
  - inversion Hw; subst; clear Hw.
    exists (b :: bs), [EvWrite out (b :: bs); EvRead chunk_size].
    cbn [fst snd log files events]. rewrite <- app_assoc.
    split; [reflexivity|]. split; [reflexivity|].
    match goal with
    | Hr : resp_read _ _ = inl _ |- _ =>
        pose proof (resp_read_inl _ _ _ Hr); tauto
    end.
  - inversion Hw; subst; clear Hw.
    match goal with
    | Hr : resp_read _ _ = inr _ |- _ =>
        destruct (resp_read_inr _ _ _ _ Hr) as (Hc & Hb & Hf & Hend)
    end.
    match goal with
    | IH : forall c : list byte, @?P c |- _ =>
        destruct (IH (c0 ++ b :: bs)) as (written & evs & Hfiles & Hevents & Hres)
    end.
    + cbn [log files]. apply lookup_insert_eq.
    + intros ->. symmetry in Hc.
      apply take_nil_inv in Hc; [|apply chunk_size_pos].
      rewrite Hb, Hf, Hc. auto.
    + rewrite Hc, length_take. lia.
    + exists ((b :: bs) ++ written),
        ([EvWrite out (b :: bs); EvRead chunk_size] ++ evs).
      rewrite Hfiles, Hevents. cbn [log files events].
      rewrite insert_insert_eq, <- !app_assoc.
      split; [reflexivity|]. split; [reflexivity|].
      destruct (while_chunk E out chunk' resp' _) as [[[]|e] w2]; cbn [fst] in *.
      * destruct Hres as (Hwr & Hnone & cs & Hcat & Hcs & Hevs).
        split; [|split].
        -- rewrite Hwr, Hc, Hb, take_drop. reflexivity.
        -- congruence.
        -- exists ((b :: bs) :: cs). split; [|split].
           ++ cbn [concat]. rewrite Hcat. reflexivity.
           ++ constructor; [|exact Hcs]. split; [discriminate|exact Hlen].
           ++ rewrite Hevs. reflexivity.
      * destruct e; try contradiction; [congruence|exact Hres].
Qed.

Lemma stream_spec E resp out w c0 :
  files w !! out = Some c0 ->
  exists written evs,
    files (stream E resp out w).2 = <[out := c0 ++ written]> (files w) /\
    events (stream E resp out w).2 = events w ++ evs /\
    match (stream E resp out w).1 with
    | Ok _ =>
        written = resp_body resp /\ resp_fail resp = None /\
        exists cs, concat cs = written /\ bounded_chunks cs /\
                   evs = EvRead chunk_size :: copy_events out cs
    | Raise (TransportError e) => resp_fail resp = Some e
    | Raise (OSError errno) =>
        exists off, os_fault E (SysWrite out off) = Some errno
    | Raise _ => False
    end.
Proof.
  intros Hout. unfold stream, bind, py_read.
  destruct (resp_read chunk_size resp) as [e|[chunk resp']] eqn:Hread.
  - exists [], [EvRead chunk_size]. cbn [fst snd log files events].
    rewrite app_nil_r.
    split; [symmetry; apply insert_id; exact Hout|].
    split; [reflexivity|]. apply resp_read_inl in Hread. tauto.
  - cbn [fst snd].
    destruct (resp_read_inr _ _ _ _ Hread) as (Hc & Hb & Hf & Hend).
    destruct (while_chunk_spec E out chunk resp' (log (EvRead chunk_size) w) c0)
      as (written & evs & Hfiles & Hevents & Hres).
    + exact Hout.
    + intros ->. symmetry in Hc.
      apply take_nil_inv in Hc; [|apply chunk_size_pos].
      rewrite Hb, Hf, Hc. auto.
    + rewrite Hc, length_take. lia.
    + exists written, (EvRead chunk_size :: evs).
      rewrite Hfiles, Hevents. cbn [log files events]. rewrite <- app_assoc.
      split; [reflexivity|]. split; [reflexivity|].
      destruct (while_chunk E out chunk resp' _) as [[[]|e] w2]; cbn [fst] in *.
      * destruct Hres as (Hwr & Hnone & cs & Hcat & Hcs & Hevs).
        split; [rewrite Hwr, Hc, Hb, take_drop; reflexivity|].
        split; [congruence|].
        exists cs. rewrite Hevs. auto.
      * destruct e; try contradiction; [congruence|exact Hres].
Qed.

(** The [with] statement on the staging file: it is created or emptied,
    filled by the stream and closed; no other file changes. *)
Lemma with_open_spec E resp tmp w :
  let rw := (py_open E tmp mode_wb >>
             try_finally (stream E resp tmp) (file_close E tmp)) w in
  (forall p, p <> tmp -> files rw.2 !! p = files w !! p) /\
  exists evs, events rw.2 = events w ++ evs /\
  match rw.1 with
  | Ok _ =>
      resp_fail resp = None /\
      files rw.2 = <[tmp := resp_body resp]> (files w) /\
      exists cs, concat cs = resp_body resp /\ bounded_chunks cs /\
        evs = [EvOpen tmp mode_wb; EvRead chunk_size] ++ copy_events tmp cs
              ++ [EvClose tmp]
  | Raise (TransportError e) => resp_fail resp = Some e
  | Raise (OSError errno) =>
      os_fault E (SysOpen tmp) = Some errno \/
      (exists off, os_fault E (SysWrite tmp off) = Some errno) \/
      os_fault E (SysClose tmp) = Some errno
  | Raise _ => False
  end.
Proof.
  unfold bind, py_open. cbn [log files events].
  destruct (os_fault E (SysOpen tmp)) as [errno|] eqn:Hopen.
  - cbn [fst snd]. split; [reflexivity|]. eexists. split; [reflexivity|]. auto.
  - set (w1 := set_files _ _).
    destruct (stream_spec E resp tmp w1 []) as (written & evs & Hfiles & Hevents & Hres).
    { apply lookup_insert_eq. }
    unfold try_finally, file_close.
    destruct (stream E resp tmp w1) as [r w2]. cbn [fst snd] in *.
    cbn [log files events].
    assert (Hframe : forall p, p <> tmp -> files w2 !! p = files w !! p).
    { intros p Hp. rewrite Hfiles. unfold w1; cbn [set_files log events files].
      rewrite insert_insert_eq, lookup_insert_ne by congruence. reflexivity. }
    destruct (os_fault E (SysClose tmp)) as [errno|] eqn:Hclose; cbn [fst snd log files events].
    + split; [exact Hframe|]. eexists. split.
      * rewrite Hevents. unfold w1; cbn [set_files log events files]. rewrite <- !app_assoc. reflexivity.
      * auto.
    + split; [exact Hframe|]. eexists. split.
      * rewrite Hevents. unfold w1; cbn [set_files log events files]. rewrite <- !app_assoc. reflexivity.
      * destruct r as [[]|e].
        -- destruct Hres as (Hwr & Hnone & cs & Hcat & Hcs & Hevs).
           split; [exact Hnone|]. split.
           ++ rewrite Hfiles. unfold w1; cbn [set_files log events files].
              rewrite insert_insert_eq, Hwr. reflexivity.
           ++ exists cs. rewrite Hevs, <- Hwr. repeat split; auto.
        -- destruct e; try contradiction; auto.
Qed.

Lemma download_unfold E url tmp full w :
  download E url tmp full w =
  match urlopen E url with
  | inl te => (Raise (TransportError te), log (EvUrlopen url) w)
  | inr resp =>
      match (py_open E tmp mode_wb >>
             try_finally (stream E resp tmp) (file_close E tmp))
              (log (EvUrlopen url) w) with
      | (Ok _, w') => os_replace E tmp full w'
      | (Raise e, w') => (Raise e, w')
      end
  end.
Proof.
  unfold download, bind, py_urlopen. destruct (urlopen E url); reflexivity.
Qed.


(** The [try] block: it publishes the whole body under the final name, or
    raises and leaves the final name as it was. *)
Lemma download_spec E url tmp full w :
  tmp <> full ->
  let rw := download E url tmp full w in
  (forall p, p <> tmp -> p <> full -> files rw.2 !! p = files w !! p) /\
  (exists evs, events rw.2 = events w ++ evs) /\
  match rw.1 with
  | Ok _ =>
      exists resp cs,
        urlopen E url = inr resp /\ resp_fail resp = None /\
        files rw.2 = <[full := resp_body resp]> (delete tmp (files w)) /\
        concat cs = resp_body resp /\ bounded_chunks cs /\
        events rw.2 =
          events w ++ [EvUrlopen url; EvOpen tmp mode_wb; EvRead chunk_size]
            ++ copy_events tmp cs ++ [EvClose tmp; EvReplace tmp full]
  | Raise e =>
      files rw.2 !! full = files w !! full /\ download_failure E url tmp full e
  end.
Proof.
  intros Hne rw. subst rw. rewrite download_unfold.
  destruct (urlopen E url) as [te|resp] eqn:Hopen.
  - cbn [fst snd log files events]. split; [auto|]. split; [eauto|].
    split; [reflexivity|]. left. exact Hopen.
  - pose proof (with_open_spec E resp tmp (log (EvUrlopen url) w)) as Hwith.
    cbv zeta in Hwith. destruct Hwith as (Hframe & evs & Hevents & Hres).
    destruct ((py_open E tmp mode_wb >> _) _) as [r w1].
    cbn [fst snd log files events] in *.
    destruct r as [[]|e].
    + destruct Hres as (Hnone & Hfiles & cs & Hcat & Hcs & Hevs).
      unfold os_replace. cbn [log files events].
      rewrite Hfiles, lookup_insert_eq.
      destruct (os_fault E (SysReplace tmp full)) as [errno|] eqn:Hrep;
        cbn [fst snd log set_files files events].
      * split; [intros p Hp _; auto|].
        split; [rewrite Hevents, <- !app_assoc; eauto|].
        split; [apply Hframe; congruence|].
        cbn. auto.
      * split.
        { intros p Hp Hp'. rewrite lookup_insert_ne by congruence.
          rewrite lookup_delete_ne by congruence.
          rewrite <- Hfiles. auto. }
        split; [rewrite Hevents, <- !app_assoc; eauto|].
        exists resp, cs. rewrite delete_insert_eq, Hevents, Hevs.
        repeat split; auto.
        rewrite <- !app_assoc. reflexivity.
    + cbn [fst snd]. split; [intros p Hp _; auto|].
      split; [rewrite Hevents, <- !app_assoc; eauto|].
      split; [apply Hframe; congruence|].
      destruct e; try contradiction; cbn.
      * right. eauto.
      * tauto.
Qed.

(** The [finally] block never raises; it deletes the staging file when that
    exists, the final file does not, and [os.remove] succeeds. *)
Lemma cleanup_spec E tmp full w :
  exists w2, cleanup E tmp full w = (Ok tt, w2) /\
    (exists evs, events w2 = events w ++ evs /\
                 Forall (fun ev => is_network ev = false) evs) /\
    ((is_Some (files w !! tmp) /\ files w !! full = None /\
      os_fault E (SysRemove tmp) = None /\ files w2 = delete tmp (files w))
     \/ ((files w !! tmp = None \/ is_Some (files w !! full) \/
          is_Some (os_fault E (SysRemove tmp))) /\ files w2 = files w)).
Proof.
  unfold cleanup, bind, os_path_exists. cbn [log files events].
  destruct (files w !! tmp) as [c|] eqn:Htmp.
  - rewrite bool_decide_eq_true_2 by eauto. cbn [log files events].
    destruct (files w !! full) as [c'|] eqn:Hfull.
    + rewrite bool_decide_eq_true_2 by eauto. cbn [negb]. unfold ret.
      eexists. split; [reflexivity|]. cbn [log files events]. split.
      * rewrite <- app_assoc. eexists. split; [reflexivity|].
        repeat constructor.
      * right. split; [eauto|reflexivity].
    + rewrite bool_decide_eq_false_2 by (apply is_Some_None). cbn [negb].
      unfold try_except_OSError, os_remove. cbn [log files events].
      rewrite Htmp.
      destruct (os_fault E (SysRemove tmp)) as [errno|] eqn:Hrm.
      * eexists. split; [reflexivity|]. cbn [log files events]. split.
        -- rewrite <- !app_assoc. eexists. split; [reflexivity|].
           repeat constructor.
        -- right. split; [eauto|reflexivity].
      * eexists. split; [reflexivity|]. cbn [log set_files files events]. split.
        -- rewrite <- !app_assoc. eexists. split; [reflexivity|].
           repeat constructor.
        -- left. eauto.
  - rewrite bool_decide_eq_false_2 by (apply is_Some_None). unfold ret.
    eexists. split; [reflexivity|]. cbn [log files events]. split.
    + eexists. split; [reflexivity|]. repeat constructor.
    + right. auto.
Qed.

Lemma staging_path_ne E data : staging_path E data <> cache_path E data.
Proof.
  unfold staging_path. intros H. apply (f_equal (@length N)) in H.
  rewrite length_app in H. cbn in H. lia.
Qed.

(** A stream that breaks makes the [try] block raise the error of the
    stream, unless a file operation on the staging file fails. *)
Lemma download_transport_error E url tmp full w te :
  (urlopen E url = inl te \/
   exists resp, urlopen E url = inr resp /\ resp_fail resp = Some te /\
     os_fault E (SysOpen tmp) = None /\
     (forall off, os_fault E (SysWrite tmp off) = None) /\
     os_fault E (SysClose tmp) = None) ->
  (download E url tmp full w).1 = Raise (TransportError te).
Proof.
  rewrite download_unfold. intros [H|(resp & H & Hfail & Ho & Hw & Hc)]; rewrite H.
  - reflexivity.
  - pose proof (with_open_spec E resp tmp (log (EvUrlopen url) w)) as Hwith.
    cbv zeta in Hwith. destruct Hwith as (_ & evs & _ & Hres).
    destruct ((py_open E tmp mode_wb >> _) _) as [[[]|e] w1]; cbn [fst snd] in *.
    + destruct Hres as [Hnone _]. congruence.
    + destruct e; try contradiction.
      * congruence.
      * destruct Hres as [Hf|[[off Hf]|Hf]]; [| rewrite Hw in Hf |]; congruence.
Qed.

(** The [try] and [finally] blocks together, from a state in which the
    final file does not exist. *)
Lemma try_download_spec E url tmp full w :
  tmp <> full -> files w !! full = None ->
  let rw := try_finally (download E url tmp full) (cleanup E tmp full) w in
  rw.1 = (download E url tmp full w).1 /\
  (forall p, p <> tmp -> p <> full -> files rw.2 !! p = files w !! p) /\
  (exists evs, events rw.2 = events w ++ evs) /\
  match rw.1 with
  | Ok _ =>
      exists resp cs,
        urlopen E url = inr resp /\ resp_fail resp = None /\
        files rw.2 = <[full := resp_body resp]> (delete tmp (files w)) /\
        concat cs = resp_body resp /\ bounded_chunks cs /\
        events rw.2 =
          events w ++ [EvUrlopen url; EvOpen tmp mode_wb; EvRead chunk_size]
            ++ copy_events tmp cs
            ++ [EvClose tmp; EvReplace tmp full; EvExists tmp]
  | Raise e =>
      files rw.2 !! full = None /\
      (files rw.2 !! tmp = None \/ is_Some (os_fault E (SysRemove tmp))) /\
      download_failure E url tmp full e
  end.
Proof.
  intros Hne Hfull rw. subst rw. unfold try_finally.
  pose proof (download_spec E url tmp full w Hne) as Hd. cbv zeta in Hd.
  destruct Hd as (Hframe & (evs & Hevents) & Hres).
  destruct (download E url tmp full w) as [r w1]. cbn [fst snd] in *.
  destruct (cleanup_spec E tmp full w1) as (w2 & Hc & (evs2 & Hevents2 & _) & Hfiles2).
  rewrite Hc. cbn [fst snd]. split; [reflexivity|].
  assert (Hframe2 : forall p, p <> tmp -> files w2 !! p = files w1 !! p).
  { intros p Hp. destruct Hfiles2 as [(_ & _ & _ & ->)|[_ ->]]; [|reflexivity].
    apply lookup_delete_ne. congruence. }
  split; [intros p Hp Hp'; rewrite Hframe2 by exact Hp; auto|].
  split; [rewrite Hevents2, Hevents, <- app_assoc; eauto|].
  destruct r as [[]|e].
  - destruct Hres as (resp & cs & Hopen & Hnone & Hfiles & Hcat & Hcs & Hev).
    exists resp, cs.
    assert (Htmp : files w1 !! tmp = None).
    { rewrite Hfiles, lookup_insert_ne by congruence. apply lookup_delete_eq. }
    unfold cleanup, bind, os_path_exists in Hc. rewrite Htmp in Hc.
    rewrite bool_decide_eq_false_2 in Hc by (apply is_Some_None).
    injection Hc as <-. cbn [log files events]. rewrite Hev, <- !app_assoc.
    repeat split; auto.
  - destruct Hres as [Hfull1 Hfail]. rewrite Hframe2 by congruence.
    split; [congruence|]. split; [|exact Hfail].
    destruct Hfiles2 as [(_ & _ & _ & ->)|[[H|[H|H]] ->]]; auto.
    + left. apply lookup_delete_eq.
    + rewrite Hfull1, Hfull in H. destruct H; discriminate.
Qed.

(** ** The outcomes of a call *)

Lemma urlparse_raises E url msg :
  urlparse E url = Raise (ValueError msg) <->
  netloc_error E (snd (urlsplit_scheme url)) = Some msg.
Proof.
  unfold urlparse. destruct (urlsplit_scheme url) as [s rest]. cbn [snd].
  destruct (netloc_error E rest); split; congruence.
Qed.

Lemma valid_or_not E url :
  valid_url E url \/ parse_fails E url \/ http_or_https (scheme_of url) = false.
Proof.
  unfold valid_url, parse_fails.
  destruct (netloc_error E (snd (urlsplit_scheme url))) as [msg|] eqn:Hn.
  - right. left. exists msg. apply urlparse_raises. exact Hn.
  - destruct (http_or_https (scheme_of url)); auto.
Qed.

(** What a call on a valid URL does, whatever the cache holds. *)
Lemma run_valid E url data w :
  valid_url E url -> utf8_encode url = Some data ->
  let full := cache_path E data in
  let tmp := staging_path E data in
  let rw := get_pdf_local_path E url w in
  match rw.1 with
  | Ok p => p = full /\ complete_entry E url w (files rw.2) full
  | Raise e =>
      files w !! full = None /\ files rw.2 !! full = None /\
      (files rw.2 !! tmp = None \/ is_Some (os_fault E (SysRemove tmp))) /\
      download_failure E url tmp full e
  end.
Proof.
  intros Hv Hu full tmp rw. subst rw.
  destruct (files w !! full) as [c|] eqn:Hfull.
  - rewrite (run_hit E url w data Hv Hu) by (fold full; rewrite Hfull; eauto).
    cbn [fst snd log files]. split; [reflexivity|]. left. eauto.
  - rewrite (run_miss E url w data Hv Hu Hfull).
    pose proof (try_download_spec E url tmp full
                  (log (EvExists full) w) (staging_path_ne E data) Hfull) as Hs.
    cbv zeta in Hs. fold full tmp.
    destruct (try_finally _ _ _) as [r w']. cbn [fst snd] in *.
    destruct Hs as (_ & _ & _ & Hres). destruct r as [[]|e].
    + split; [reflexivity|]. right. split; [exact Hfull|].
      destruct Hres as (resp & cs & Hopen & Hnone & Hfiles & _).
      exists resp. rewrite Hfiles, lookup_insert_eq. auto.
    + tauto.
Qed.

Lemma run_not_ValueError E url w msg :
  valid_url E url ->
  (get_pdf_local_path E url w).1 <> Raise (ValueError msg).
Proof.
  intros Hv. destruct (utf8_encode url) as [data|] eqn:Hu.
  - pose proof (run_valid E url data w Hv Hu) as H. cbv zeta in H.
    destruct (get_pdf_local_path E url w) as [[p|e] w']; cbn [fst snd] in *.
    + discriminate.
    + destruct H as (_ & _ & _ & Hf). intros [= ->]. exact Hf.
  - rewrite (run_encode_error E url w Hv Hu). discriminate.
Qed.






(** C5. On a valid URL whose cache file exists, whatever it holds, the
    routine returns the path of that file, and what it does on the way is no
    network access. *)
Theorem cache_hit_returns_path (E : env) (url : pystr) (data : bytes) (w : world) :
  valid_url E url -> utf8_encode url = Some data ->
  is_Some (files w !! cache_path E data) ->
  (get_pdf_local_path E url w).1 = Ok (cache_path E data) /\
  exists evs, events (get_pdf_local_path E url w).2 = events w ++ evs /\
              Forall (fun ev => is_network ev = false) evs.
Proof.
  intros Hv Hu Hf. rewrite (run_hit E url w data Hv Hu Hf).
  cbn [fst snd log events]. split; [reflexivity|].
  eexists. split; [reflexivity|]. repeat constructor.
Qed.

Lemma cache_hit_returns_path_witness :
  valid_url env_ok url_doc /\ utf8_encode url_doc = Some data_doc /\
  is_Some (files world_cached !! cache_path env_ok data_doc) /\
  (get_pdf_local_path env_ok url_doc world_cached).1 =
    Ok (cache_path env_ok data_doc).
Proof.
  assert (Hv : valid_url env_ok url_doc) by (split; vm_compute; reflexivity).
  assert (Hu : utf8_encode url_doc = Some data_doc) by (vm_compute; reflexivity).
  assert (Hf : is_Some (files world_cached !! cache_path env_ok data_doc))
    by (vm_compute; eauto).
  split; [exact Hv|]. split; [exact Hu|]. split; [exact Hf|].
  exact (proj1 (cache_hit_returns_path env_ok url_doc data_doc world_cached Hv Hu Hf)).
Defined.



Lemma world_eta (w : world) : w = {| files := files w; events := events w |}.
Proof. destruct w. reflexivity. Qed.

(** C8. On the failure path, when deleting the staging file fails, the
    routine still raises the exception of the [try] block, the one with
    which the download failed: the [OSError] of [os.remove] is swallowed,
    and the staging file stays. *)
Theorem cleanup_failure_swallowed (E : env) (url : pystr) (data : bytes)
    (w w1 : world) (e : exn) (errno : Z) :
  valid_url E url -> utf8_encode url = Some data ->
  files w !! cache_path E data = None ->
  download E url (staging_path E data) (cache_path E data)
           (log (EvExists (cache_path E data)) w) = (Raise e, w1) ->
  is_Some (files w1 !! staging_path E data) ->
  os_fault E (SysRemove (staging_path E data)) = Some errno ->
  get_pdf_local_path E url w =
  (Raise e,
   {| files := files w1;
      events := events w1 ++ [EvExists (staging_path E data);
                              EvExists (cache_path E data);
                              EvRemove (staging_path E data)] |}).
Proof.
  intros Hv Hu Hfull Hd [c Htmp] Hrm.
  rewrite (run_miss E url w data Hv Hu Hfull). unfold try_finally. rewrite Hd.
  pose proof (download_spec E url _ _ (log (EvExists (cache_path E data)) w)
                (staging_path_ne E data)) as Hs.
  cbv zeta in Hs. rewrite Hd in Hs. cbn [fst snd log files] in Hs.
  destruct Hs as (_ & _ & Hfull1 & _). rewrite Hfull in Hfull1.
  unfold cleanup, bind, os_path_exists. cbn [log files events].
  rewrite Htmp.
  rewrite bool_decide_eq_true_2 by eauto. cbn [log files events].
  rewrite Hfull1.
  rewrite bool_decide_eq_false_2 by (apply is_Some_None). cbn [negb].
  unfold try_except_OSError, os_remove. cbn [log files events].
  rewrite Hrm. unfold log. cbn [files events]. rewrite <- !app_assoc.
  reflexivity.
Qed.

Lemma cleanup_failure_swallowed_witness :
  let E := env_reset remove_fault in
  (get_pdf_local_path E url_doc world_empty).1 =
    Raise (TransportError ConnectionReset) /\
  is_Some (files (get_pdf_local_path E url_doc world_empty).2
             !! staging_path E data_doc).
Proof.
  intros E.
  assert (Hv : valid_url E url_doc) by (split; vm_compute; reflexivity).
  assert (Hu : utf8_encode url_doc = Some data_doc) by (vm_compute; reflexivity).
  assert (Hfull : files world_empty !! cache_path E data_doc = None)
    by (vm_compute; reflexivity).
  destruct (download E url_doc (staging_path E data_doc) (cache_path E data_doc)
              (log (EvExists (cache_path E data_doc)) world_empty))
    as [r w1] eqn:Hd.
  assert (Hr : r = Raise (TransportError ConnectionReset))
    by (apply (f_equal fst) in Hd; vm_compute in Hd; congruence).
  assert (Htmp : is_Some (files w1 !! staging_path E data_doc)).
  { apply (f_equal snd) in Hd. cbn [snd] in Hd. rewrite <- Hd.
    vm_compute. eauto. }
  subst r.
  rewrite (cleanup_failure_swallowed E url_doc data_doc world_empty w1 _ 13
             Hv Hu Hfull Hd Htmp eq_refl).
  cbn [fst snd files]. split; [reflexivity|exact Htmp].
Defined.

(** C1, as amended. At the end of a call on a valid URL: when the call
    returns, it returns the cache path and the final file is complete, being
    the file that was there before or the whole body of the response; when
    it raises, the final file does not exist, and neither does the staging
    file unless deleting it failed. When the download breaks while the file
    operations on the staging file succeed, the caller gets the error of
    the download. *)
Theorem cache_invariant_best_effort (E : env) (url : pystr) (data : bytes)
    (w : world) :
  valid_url E url -> utf8_encode url = Some data ->
  let full := cache_path E data in
  let tmp := staging_path E data in
  let rw := get_pdf_local_path E url w in
  match rw.1 with
  | Ok p => p = full /\ complete_entry E url w (files rw.2) full
  | Raise e =>
      files rw.2 !! full = None /\
      (files rw.2 !! tmp = None \/ is_Some (os_fault E (SysRemove tmp)))
  end /\
  (forall te, files w !! full = None -> stream_breaks E url tmp te ->
              rw.1 = Raise (TransportError te)).
Proof.
  intros Hv Hu full tmp rw. split.
  - pose proof (run_valid E url data w Hv Hu) as H. cbv zeta in H.
    fold full tmp rw in H. destruct (rw.1); tauto.
  - intros te Hfull Hbreak. subst rw.
    rewrite (run_miss E url w data Hv Hu Hfull).
    pose proof (try_download_spec E url tmp full (log (EvExists full) w)
                  (staging_path_ne E data) Hfull) as Hs.
    cbv zeta in Hs. destruct Hs as (Hsame & _).
    rewrite (download_transport_error E url tmp full _ te) in Hsame.
    + fold full tmp. destruct (try_finally _ _ _) as [r w']. cbn [fst] in *.
      rewrite Hsame. reflexivity.
    + destruct Hbreak as [H|(resp & H & Hf & Ho & Hw & Hc)]; [left|right]; eauto 10.
Qed.

Lemma cache_invariant_best_effort_witness :
  let E := env_reset no_fault in
  let rw := get_pdf_local_path E url_doc world_empty in
  rw.1 = Raise (TransportError ConnectionReset) /\
  files rw.2 !! cache_path E data_doc = None /\
  files rw.2 !! staging_path E data_doc = None.
Proof.
  intros E rw.
  assert (Hv : valid_url E url_doc) by (split; vm_compute; reflexivity).
  assert (Hu : utf8_encode url_doc = Some data_doc) by (vm_compute; reflexivity).
  pose proof (cache_invariant_best_effort E url_doc data_doc world_empty Hv Hu)
    as [Hinv Herr].
  fold rw in Hinv, Herr.
  assert (Hr : rw.1 = Raise (TransportError ConnectionReset)).
  { apply Herr; [vm_compute; reflexivity|].
    right. eexists. split; [reflexivity|]. split; [reflexivity|].
    repeat split. }
  rewrite Hr in Hinv. destruct Hinv as [Hfull [Htmp|[x Hx]]].
  - auto.
  - discriminate Hx.
Defined.

(** C1 as stated fails: when the connection is reset after the first bytes
    and [os.remove] fails, the call ends with the staging file in place and
    no final file. *)
Lemma cache_invariant_counterexample :
  let E := env_reset remove_fault in
  let rw := get_pdf_local_path E url_doc world_empty in
  valid_url E url_doc /\
  rw.1 = Raise (TransportError ConnectionReset) /\
  files rw.2 !! staging_path E data_doc = Some (ascii_bytes "%PDF-1.4 ex") /\
  ~ cache_consistent (files rw.2) (cache_path E data_doc)
                     (staging_path E data_doc).
Proof.
  intros E rw.
  split; [split; vm_compute; reflexivity|].
  split; [vm_compute; reflexivity|].
  split; [vm_compute; reflexivity|].
  unfold cache_consistent. vm_compute.
  intros [[x H]|[_ H]]; discriminate H.
Qed.

(** C6, as amended. On a cache miss with a response that ends well and no
    failing file operation, the routine opens the staging file [<path>.part]
    in mode ["wb"], which creates it or empties what an earlier call left,
    copies the body into it in chunks of at most 8192 bytes, each read
    followed by its write, closes it, renames it to the final path with one
    [os.replace], and returns the final path, whose file then holds the
    whole body. *)
Theorem cache_miss_streams_and_publishes (E : env) (url : pystr)
    (data : bytes) (w : world) (resp : response) :
  valid_url E url -> utf8_encode url = Some data ->
  let full := cache_path E data in
  let tmp := staging_path E data in
  files w !! full = None ->
  urlopen E url = inr resp -> resp_fail resp = None ->
  staging_ok E tmp -> os_fault E (SysReplace tmp full) = None ->
  exists cs,
    concat cs = resp_body resp /\ bounded_chunks cs /\
    get_pdf_local_path E url w =
    (Ok full,
     {| files := <[full := resp_body resp]> (delete tmp (files w));
        events := events w ++
          [EvExists full; EvUrlopen url; EvOpen tmp mode_wb;
           EvRead chunk_size] ++ copy_events tmp cs ++
          [EvClose tmp; EvReplace tmp full; EvExists tmp] |}).
Proof.
  intros Hv Hu full tmp Hfull Hopen Hnone (Ho & Hw & Hc) Hrep.
  rewrite (run_miss E url w data Hv Hu Hfull). fold full tmp.
  pose proof (try_download_spec E url tmp full (log (EvExists full) w)
                (staging_path_ne E data) Hfull) as Hs.
  cbv zeta in Hs. destruct Hs as (_ & _ & _ & Hres).
  destruct (try_finally _ _ _) as [[[]|e] w']; cbn [fst snd] in *.
  - destruct Hres as (resp' & cs & Hopen' & _ & Hfiles & Hcat & Hcs & Hev).
    assert (resp' = resp) by congruence. subst resp'.
    exists cs. split; [exact Hcat|]. split; [exact Hcs|].
    rewrite (world_eta w'), Hfiles, Hev. cbn [log files events].
    rewrite <- !app_assoc. reflexivity.
  - exfalso. destruct Hres as (_ & _ & Hf). destruct e; try exact Hf; cbn in Hf.
    + destruct Hf as [Hf|(resp' & Hf & Hf')]; congruence.
    + destruct Hf as [Hf|[[off Hf]|[Hf|Hf]]];
        try rewrite Hw in Hf; congruence.
Qed.

Lemma cache_miss_streams_and_publishes_witness :
  valid_url env_ok url_doc /\ utf8_encode url_doc = Some data_doc /\
  files world_leftover !! cache_path env_ok data_doc = None /\
  exists cs,
    concat cs = body_doc /\ bounded_chunks cs /\
    (get_pdf_local_path env_ok url_doc world_leftover).1 =
      Ok (cache_path env_ok data_doc).
Proof.
  assert (Hv : valid_url env_ok url_doc) by (split; vm_compute; reflexivity).
  assert (Hu : utf8_encode url_doc = Some data_doc) by (vm_compute; reflexivity).
  assert (Hf : files world_leftover !! cache_path env_ok data_doc = None)
    by (vm_compute; reflexivity).
  split; [exact Hv|]. split; [exact Hu|]. split; [exact Hf|].
  destruct (cache_miss_streams_and_publishes env_ok url_doc data_doc
              world_leftover {| resp_body := body_doc; resp_fail := None |}
              Hv Hu Hf eq_refl eq_refl
              (conj eq_refl (conj (fun _ => eq_refl) eq_refl)) eq_refl)
    as (cs & Hcat & Hcs & Hrun).
  exists cs. split; [exact Hcat|]. split; [exact Hcs|].
  exact (f_equal fst Hrun).
Defined.

(** C6 as stated fails: the staging file is not opened for exclusive
    writing. With a staging file left by an earlier call the routine opens
    it in mode ["wb"], empties it and succeeds, where an exclusive open
    fails with [FileExistsError]. *)
Lemma staging_open_not_exclusive :
  let tmp := staging_path env_ok data_doc in
  let rw := get_pdf_local_path env_ok url_doc world_leftover in
  valid_url env_ok url_doc /\
  is_Some (files world_leftover !! tmp) /\
  rw.1 = Ok (cache_path env_ok data_doc) /\
  In (EvOpen tmp mode_wb) (events rw.2) /\
  ~ opened_exclusive tmp (events rw.2) /\
  (py_open env_ok tmp mode_xb world_leftover).1 = Raise (OSError EEXIST).
Proof.
  intros tmp rw.
  split; [split; vm_compute; reflexivity|].
  split; [vm_compute; eauto|].
  split; [vm_compute; reflexivity|].
  split; [vm_compute; tauto|].
  split; [|vm_compute; reflexivity].
  unfold opened_exclusive. vm_compute.
  intros H. repeat (destruct H as [H|H]; [discriminate H|]). exact H.
Qed.

(** ** The scheme *)

Lemma lower_char_inv (c d : N) :
  lower_char c = d -> is_ascii_lower d = true -> c = d \/ c = (d - 32)%N.
Proof.
  unfold lower_char, is_ascii_upper, is_ascii_lower.
  destruct ((65 <=? c)%N && (c <=? 90)%N) eqn:Hup.
  - intros <- _. right. lia.
  - intros <- _. left. reflexivity.
Qed.

Ltac split_case H :=
  apply lower_char_inv in H; [destruct H as [-> | ->] | reflexivity].

Lemma urlsplit_scheme_http (s rest : pystr) :
  lower s = lit "http" ->
  urlsplit_scheme (s ++ [colon] ++ rest) =
  (lit "http", List.filter (fun c => negb (unsafe_url_byte c)) rest).
Proof.
  destruct s as [|c1 [|c2 [|c3 [|c4 [|c5 s]]]]]; try discriminate.
  intros H. injection H as H1 H2 H3 H4.
  split_case H1; split_case H2; split_case H3; split_case H4; reflexivity.
Qed.

Lemma urlsplit_scheme_https (s rest : pystr) :
  lower s = lit "https" ->
  urlsplit_scheme (s ++ [colon] ++ rest) =
  (lit "https", List.filter (fun c => negb (unsafe_url_byte c)) rest).
Proof.
  destruct s as [|c1 [|c2 [|c3 [|c4 [|c5 [|c6 s]]]]]]; try discriminate.
  intros H. injection H as H1 H2 H3 H4 H5.
  split_case H1; split_case H2; split_case H3; split_case H4; split_case H5;
    reflexivity.
Qed.

(** C9. The scheme check does not depend on the case of the letters: for a
    URL [s:rest] whose scheme [s] is [http] or [https] up to case, the
    parsed scheme is the lowercased [s], the check passes, and the routine
    does not raise [ValueError] when [urlparse] accepts the rest of the
    URL. *)
Theorem scheme_case_insensitive (E : env) (s rest : pystr) (w : world) :
  lower s = lit "http" \/ lower s = lit "https" ->
  let url := s ++ [colon] ++ rest in
  netloc_error E (snd (urlsplit_scheme url)) = None ->
  scheme_of url = lower s /\
  http_or_https (scheme_of url) = true /\
  forall msg, (get_pdf_local_path E url w).1 <> Raise (ValueError msg).
Proof.
  intros Hs url Hn.
  assert (Hscheme : scheme_of url = lower s).
  { unfold scheme_of, url.
    destruct Hs as [Hs|Hs];
      [rewrite (urlsplit_scheme_http s rest Hs)
      |rewrite (urlsplit_scheme_https s rest Hs)]; rewrite Hs; reflexivity. }
  assert (Hok : http_or_https (scheme_of url) = true).
  { rewrite Hscheme. destruct Hs as [-> | ->]; vm_compute; reflexivity. }
  split; [exact Hscheme|]. split; [exact Hok|].
  intros msg. apply run_not_ValueError. split; assumption.
Qed.

Lemma scheme_case_insensitive_witness :
  lower (lit "HTTP") = lit "http" /\
  scheme_of (lit "HTTP://host/x") = lit "http" /\
  forall msg,
    (get_pdf_local_path env_ok (lit "HTTP://host/x") world_empty).1
    <> Raise (ValueError msg).
Proof.
  split; [vm_compute; reflexivity|].
  destruct (scheme_case_insensitive env_ok (lit "HTTP") (lit "//host/x")
              world_empty (or_introl eq_refl) eq_refl) as (H1 & _ & H3).
  split; [exact H1|exact H3].
Defined.

(** ** The cache key *)

Lemma round_length st kw : length st = 8%nat -> length (SHA256.round st kw) = 8%nat.
Proof.
  destruct st as [|a [|b [|c [|d [|e [|f [|g [|h [|i st]]]]]]]]];
    try discriminate. reflexivity.
Qed.

Lemma fold_round_length l st :
  length st = 8%nat -> length (List.fold_left SHA256.round l st) = 8%nat.
Proof.
  revert st. induction l as [|kw l IH]; intros st H; cbn [List.fold_left].
  - exact H.
  - apply IH, round_length, H.
Qed.

Lemma compress_length h block :
  length h = 8%nat -> length (SHA256.compress h block) = 8%nat.
Proof.
  intros H. unfold SHA256.compress, SHA256.zip_add.
  rewrite length_map, length_combine, fold_round_length by exact H.
  rewrite H. reflexivity.
Qed.

Lemma blocks_length n h bs :
  length h = 8%nat -> length (SHA256.blocks n h bs) = 8%nat.
Proof.
  revert h bs. induction n as [|n IH]; intros h bs H; cbn [SHA256.blocks].
  - exact H.
  - apply IH, compress_length, H.
Qed.

Lemma words_length msg : length (SHA256.words msg) = 8%nat.
Proof. unfold SHA256.words. apply blocks_length. reflexivity. Qed.

Lemma be_bytes_length n x : length (SHA256.be_bytes n x) = n.
Proof. induction n as [|n IH]; cbn [SHA256.be_bytes length]; congruence. Qed.

Lemma flat_map_length_const {A B} (f : A -> list B) (k : nat) (l : list A) :
  (forall x, length (f x) = k) -> length (List.flat_map f l) = (length l * k)%nat.
Proof.
  intros H. induction l as [|x l IH]; cbn [List.flat_map length].
  - reflexivity.
  - rewrite length_app, H, IH. lia.
Qed.

Lemma digest_length msg : length (SHA256.digest msg) = 32%nat.
Proof.
  unfold SHA256.digest.
  rewrite length_map, (flat_map_length_const _ 4) by (intros; apply be_bytes_length).
  rewrite words_length. reflexivity.
Qed.

Lemma hexdigest_length msg : length (hexdigest msg) = 64%nat.
Proof.
  unfold hexdigest, hex.
  rewrite (flat_map_length_const _ 2) by reflexivity.
  rewrite digest_length. reflexivity.
Qed.

Lemma hex_digit_lower n : (n < 16)%N -> is_lower_hex (hex_digit n) = true.
Proof.
  intros H. unfold hex_digit, is_lower_hex.
  destruct (n <? 10)%N eqn:Hn.
  - apply N.ltb_lt in Hn. apply orb_true_iff. left.
    apply andb_true_iff. split; apply N.leb_le; lia.
  - apply N.ltb_ge in Hn. apply orb_true_iff. right.
    apply andb_true_iff. split; apply N.leb_le; lia.
Qed.

Lemma hex_lower bs : Forall (fun c => is_lower_hex c = true) (hex bs).
Proof.
  unfold hex. induction bs as [|b bs IH]; cbn [List.flat_map].
  - constructor.
  - apply Forall_app. split; [|exact IH].
    pose proof (Byte.to_N_bounded b) as Hb.
    unfold hex_byte. repeat constructor; apply hex_digit_lower.
    + apply N.Div0.div_lt_upper_bound. lia.
    + apply N.mod_lt. discriminate.
Qed.

(** A call that returns has passed the validation and returns the cache
    path. *)
Lemma run_ok_inv E url w p w' :
  get_pdf_local_path E url w = (Ok p, w') ->
  valid_url E url /\
  exists data, utf8_encode url = Some data /\ p = cache_path E data.
Proof.
  intros Hrun.
  destruct (netloc_error E (snd (urlsplit_scheme url))) as [m|] eqn:Hn.
  { rewrite (run_parse_error E url w m Hn) in Hrun. discriminate. }
  destruct (http_or_https (scheme_of url)) eqn:Hs.
  2:{ rewrite (run_scheme_error E url w Hn Hs) in Hrun. discriminate. }
  assert (Hv : valid_url E url) by (split; assumption).
  split; [exact Hv|].
  destruct (utf8_encode url) as [data|] eqn:Hu.
  2:{ rewrite (run_encode_error E url w Hv Hu) in Hrun. discriminate. }
  exists data. split; [reflexivity|].
  pose proof (run_valid E url data w Hv Hu) as H. cbv zeta in H.
  rewrite Hrun in H. cbn [fst] in H. tauto.
Qed.

(** C3. The path that the routine returns is the temporary directory joined
    ([os.path.join]) with the SHA-256 digest of the UTF-8 encoding of the
    URL as given, written as 64 lowercase hexadecimal digits and followed
    by [.pdf]. *)
Theorem returned_path (E : env) (url p : pystr) (w w' : world) :
  get_pdf_local_path E url w = (Ok p, w') ->
  exists data,
    utf8_encode url = Some data /\
    p = path_join (gettempdir E) (hex (SHA256.digest data) ++ lit ".pdf") /\
    length (hex (SHA256.digest data)) = 64%nat /\
    Forall (fun c => is_lower_hex c = true) (hex (SHA256.digest data)).
Proof.
  intros Hrun. destruct (run_ok_inv E url w p w' Hrun) as (_ & data & Hu & ->).
  exists data. split; [exact Hu|]. split; [reflexivity|].
  split; [apply hexdigest_length|apply hex_lower].
Qed.

Lemma returned_path_witness :
  (get_pdf_local_path env_ok url_doc world_empty).1 =
    Ok (lit "/tmp/c22a6888b865a6128c9ccfecd429e5a9db683f778fa589706649ab86689b9022.pdf") /\
  exists data,
    utf8_encode url_doc = Some data /\
    lit "/tmp/c22a6888b865a6128c9ccfecd429e5a9db683f778fa589706649ab86689b9022.pdf" =
      path_join (gettempdir env_ok) (hex (SHA256.digest data) ++ lit ".pdf").
Proof.
  destruct (get_pdf_local_path env_ok url_doc world_empty) as [r w'] eqn:Hrun.
  assert (Hr : r = Ok (lit "/tmp/c22a6888b865a6128c9ccfecd429e5a9db683f778fa589706649ab86689b9022.pdf"))
    by (apply (f_equal fst) in Hrun; vm_compute in Hrun; vm_compute;
        symmetry; exact Hrun).
  subst r. split; [reflexivity|].
  destruct (returned_path env_ok url_doc _ world_empty w' Hrun)
    as (data & Hu & Hp & _).
  exists data. split; [exact Hu|exact Hp].
Defined.

(** C2. Two calls on the same URL that return, return the same path,
    whatever the server answers and whatever the cache holds, as long as the
    temporary directory is the same. *)
Theorem returned_path_deterministic (E1 E2 : env) (url p1 p2 : pystr)
    (w1 w1' w2 w2' : world) :
  gettempdir E1 = gettempdir E2 ->
  get_pdf_local_path E1 url w1 = (Ok p1, w1') ->
  get_pdf_local_path E2 url w2 = (Ok p2, w2') ->
  p1 = p2.
Proof.
  intros Ht H1 H2.
  destruct (run_ok_inv E1 url w1 p1 w1' H1) as (_ & d1 & Hu1 & ->).
  destruct (run_ok_inv E2 url w2 p2 w2' H2) as (_ & d2 & Hu2 & ->).
  assert (d1 = d2) by congruence. subst d2.
  unfold cache_path. rewrite Ht. reflexivity.
Qed.

Lemma returned_path_deterministic_witness :
  (get_pdf_local_path env_ok url_doc world_empty).1 =
  (get_pdf_local_path (env_reset no_fault) url_doc world_cached).1.
Proof.
  destruct (get_pdf_local_path env_ok url_doc world_empty) as [r1 w1'] eqn:H1.
  destruct (get_pdf_local_path (env_reset no_fault) url_doc world_cached)
    as [r2 w2'] eqn:H2.
  assert (Hr1 : exists p1, r1 = Ok p1)
    by (apply (f_equal fst) in H1; vm_compute in H1; eauto).
  assert (Hr2 : exists p2, r2 = Ok p2)
    by (apply (f_equal fst) in H2; vm_compute in H2; eauto).
  destruct Hr1 as [p1 ->]. destruct Hr2 as [p2 ->]. cbn [fst].
  f_equal.
  exact (returned_path_deterministic env_ok (env_reset no_fault) url_doc p1 p2
           world_empty w1' world_cached w2' eq_refl H1 H2).
Defined.

(** ** Calls that follow one another, and what a call leaves alone *)

Lemma run_valid_io_error E url data w e :
  valid_url E url -> utf8_encode url = Some data ->
  (get_pdf_local_path E url w).1 = Raise e -> io_error e.
Proof.
  intros Hv Hu He.
  pose proof (run_valid E url data w Hv Hu) as H. cbv zeta in H.
  rewrite He in H. destruct H as (_ & _ & _ & Hf).
  destruct e; cbn in Hf |- *; tauto.
Qed.

(** A call changes no file but the cache file and the staging file. *)
Lemma run_frame E url data w p :
  valid_url E url -> utf8_encode url = Some data ->
  p <> cache_path E data -> p <> staging_path E data ->
  files (get_pdf_local_path E url w).2 !! p = files w !! p.
Proof.
  intros Hv Hu Hpf Hpt.
  destruct (files w !! cache_path E data) as [c|] eqn:Hfull.
  - rewrite (run_hit E url w data Hv Hu) by (rewrite Hfull; eauto).
    reflexivity.
  - rewrite (run_miss E url w data Hv Hu Hfull).
    pose proof (try_download_spec E url (staging_path E data) (cache_path E data)
                  (log (EvExists (cache_path E data)) w)
                  (staging_path_ne E data) Hfull) as H.
    cbv zeta in H. destruct H as (_ & Hframe & _).
    destruct (try_finally _ _ _) as [r w'].
    cbn [snd] in Hframe |- *. rewrite (Hframe p Hpt Hpf). reflexivity.
Qed.

(** X1. After a call that returned, a call on the same URL finds the file:
    it returns the same path after the one existence probe, with no request
    to the server and no change to the files, whatever the server would
    answer now, as long as the temporary directory and the files are the
    same. *)
Theorem second_call_is_hit (E E' : env) (url p : pystr) (w w1 w2 : world) :
  get_pdf_local_path E url w = (Ok p, w1) ->
  gettempdir E' = gettempdir E ->
  netloc_error E' = netloc_error E ->
  files w2 = files w1 ->
  get_pdf_local_path E' url w2 = (Ok p, log (EvExists p) w2).
Proof.
  intros Hrun Ht Hn Hf.
  destruct (run_ok_inv E url w p w1 Hrun) as (Hv & data & Hu & ->).
  pose proof (run_valid E url data w Hv Hu) as H. cbv zeta in H.
  rewrite Hrun in H. cbn [fst snd] in H. destruct H as [_ Hc].
  assert (Hsome : is_Some (files w1 !! cache_path E data)).
  { destruct Hc as [(c & _ & Hc) | (_ & resp & _ & _ & Hc)];
      rewrite Hc; eauto. }
  assert (Hp : cache_path E' data = cache_path E data)
    by (unfold cache_path; rewrite Ht; reflexivity).
  assert (Hv' : valid_url E' url).
  { destruct Hv as [Hv1 Hv2]. split; [rewrite Hn; exact Hv1|exact Hv2]. }
  rewrite <- Hp.
  apply (run_hit E' url w2 data Hv' Hu). rewrite Hp, Hf. exact Hsome.
Qed.

Lemma second_call_is_hit_witness :
  exists p w1,
    get_pdf_local_path env_ok url_doc world_empty = (Ok p, w1) /\
    get_pdf_local_path env_down url_doc w1 = (Ok p, log (EvExists p) w1).
Proof.
  destruct (get_pdf_local_path env_ok url_doc world_empty) as [r w1] eqn:Hrun.
  assert (Hr : r = Ok (cache_path env_ok data_doc))
    by (apply (f_equal fst) in Hrun; vm_compute in Hrun; vm_compute;
        symmetry; exact Hrun).
  subst r. exists (cache_path env_ok data_doc), w1. split; [reflexivity|].
  exact (second_call_is_hit env_ok env_down url_doc _ world_empty w1 w1
           Hrun eq_refl eq_refl eq_refl).
Defined.

(** X2. Whatever the outcome of a call, a path that is neither the cache
    path nor the staging path of the URL holds after the call what it held
    before it. *)
Theorem other_paths_untouched (E : env) (url p : pystr) (w : world) :
  (forall data, utf8_encode url = Some data ->
                p <> cache_path E data /\ p <> staging_path E data) ->
  files (get_pdf_local_path E url w).2 !! p = files w !! p.
Proof.
  intros Hp.
  destruct (valid_or_not E url) as [Hv | [[msg Hm] | Hs]].
  - destruct (utf8_encode url) as [data|] eqn:Hu.
    + destruct (Hp data eq_refl). apply (run_frame E url data); assumption.
    + rewrite (run_encode_error E url w Hv Hu). reflexivity.
  - apply urlparse_raises in Hm. rewrite (run_parse_error E url w msg Hm).
    reflexivity.
  - destruct (netloc_error E (snd (urlsplit_scheme url))) as [m|] eqn:Hn.
    + rewrite (run_parse_error E url w m Hn). reflexivity.
    + rewrite (run_scheme_error E url w Hn Hs). reflexivity.
Qed.

Lemma other_paths_untouched_witness :
  let w := world_notes in
  files (get_pdf_local_path (env_reset no_fault) url_doc w).2
    !! lit "/tmp/notes.txt" = Some (ascii_bytes "kept").
Proof.
  intros w.
  rewrite (other_paths_untouched (env_reset no_fault) url_doc
             (lit "/tmp/notes.txt") w).
  - reflexivity.
  - intros data Hu.
    assert (Hd : data = data_doc)
      by (vm_compute in Hu; injection Hu as <-; reflexivity).
    subst data. split; vm_compute; discriminate.
Defined.

(** X3. A call on a valid URL that raises while [os.remove] works leaves
    the files as they were before the call, less the staging file: nothing
    is under the final name, and a staging file that an earlier call left
    is gone as well. *)
Theorem failed_call_restores_files (E : env) (url : pystr) (data : bytes)
    (w : world) (e : exn) :
  valid_url E url -> utf8_encode url = Some data ->
  os_fault E (SysRemove (staging_path E data)) = None ->
  (get_pdf_local_path E url w).1 = Raise e ->
  files w !! cache_path E data = None /\
  files (get_pdf_local_path E url w).2 = delete (staging_path E data) (files w).
Proof.
  intros Hv Hu Hrm He.
  pose proof (run_valid E url data w Hv Hu) as H. cbv zeta in H.
  rewrite He in H. destruct H as (Hfull & Hfull' & Htmp & _).
  split; [exact Hfull|].
  apply map_eq. intros p.
  destruct (decide (p = staging_path E data)) as [->|Hpt].
  { rewrite lookup_delete_eq. destruct Htmp as [Htmp|Htmp]; [exact Htmp|].
    rewrite Hrm in Htmp. destruct Htmp; discriminate. }
  rewrite lookup_delete_ne by congruence.
  destruct (decide (p = cache_path E data)) as [->|Hpf].
  { rewrite Hfull', Hfull. reflexivity. }
  apply (run_frame E url data); assumption.
Qed.

Lemma failed_call_restores_files_witness :
  let E := env_reset no_fault in
  valid_url E url_doc /\ utf8_encode url_doc = Some data_doc /\
  (get_pdf_local_path E url_doc world_leftover).1 =
    Raise (TransportError ConnectionReset) /\
  files (get_pdf_local_path E url_doc world_leftover).2 =
    delete (staging_path E data_doc) (files world_leftover).
Proof.
  intros E.
  assert (Hv : valid_url E url_doc) by (split; vm_compute; reflexivity).
  assert (Hu : utf8_encode url_doc = Some data_doc) by (vm_compute; reflexivity).
  assert (He : (get_pdf_local_path E url_doc world_leftover).1 =
               Raise (TransportError ConnectionReset))
    by (vm_compute; reflexivity).
  split; [exact Hv|]. split; [exact Hu|]. split; [exact He|].
  exact (proj2 (failed_call_restores_files E url_doc data_doc world_leftover _
                  Hv Hu eq_refl He)).
Defined.

(** ** The failures of the download, one by one *)

(** X4. When [urlopen] raises on a cache miss, the call raises that error
    and no file is opened or written: the only operations are the probe of
    the cache, the request, and the probes and the removal of the [finally]
    block, which deletes a staging file left by an earlier call. *)
Theorem urlopen_failure_outcome (E : env) (url : pystr) (data : bytes)
    (w : world) (te : transport_error) :
  valid_url E url -> utf8_encode url = Some data ->
  let full := cache_path E data in
  let tmp := staging_path E data in
  files w !! full = None ->
  urlopen E url = inl te ->
  get_pdf_local_path E url w =
  (Raise (TransportError te),
   {| files := match os_fault E (SysRemove tmp) with
               | None => delete tmp (files w)
               | Some _ => files w
               end;
      events := events w ++ [EvExists full; EvUrlopen url; EvExists tmp] ++
                (if bool_decide (is_Some (files w !! tmp))
                 then [EvExists full; EvRemove tmp] else []) |}).
Proof.
  intros Hv Hu full tmp Hfull Hopen.
  rewrite (run_miss E url w data Hv Hu Hfull). fold full tmp.
  unfold try_finally. rewrite download_unfold, Hopen.
  unfold cleanup, bind, os_path_exists, log, ret. cbn [files events].
  destruct (files w !! tmp) as [c|] eqn:Htmp.
  - rewrite bool_decide_eq_true_2 by eauto.
    cbn [files events]. rewrite Hfull.
    rewrite bool_decide_eq_false_2 by (intros [? ?]; discriminate).
    cbn [negb]. unfold try_except_OSError, os_remove, log, set_files.
    cbn [files events]. rewrite Htmp.
    destruct (os_fault E (SysRemove tmp)); cbn; repeat rewrite <- app_assoc;
      reflexivity.
  - rewrite bool_decide_eq_false_2 by (intros [? ?]; discriminate).
    rewrite delete_id by exact Htmp.
    destruct (os_fault E (SysRemove tmp)); cbn; repeat rewrite <- app_assoc;
      reflexivity.
Qed.

Lemma urlopen_failure_outcome_witness :
  valid_url env_down url_doc /\ utf8_encode url_doc = Some data_doc /\
  (get_pdf_local_path env_down url_doc world_leftover).1 =
    Raise (TransportError (URLError (lit "unreachable"))) /\
  files (get_pdf_local_path env_down url_doc world_leftover).2 =
    delete (staging_path env_down data_doc) (files world_leftover).
Proof.
  assert (Hv : valid_url env_down url_doc) by (split; vm_compute; reflexivity).
  assert (Hu : utf8_encode url_doc = Some data_doc) by (vm_compute; reflexivity).
  assert (Hf : files world_leftover !! cache_path env_down data_doc = None)
    by (vm_compute; reflexivity).
  pose proof (urlopen_failure_outcome env_down url_doc data_doc world_leftover
                (URLError (lit "unreachable")) Hv Hu Hf eq_refl) as Hrun.
  split; [exact Hv|]. split; [exact Hu|].
  split; [exact (f_equal fst Hrun)|].
  exact (f_equal (fun rw => files rw.2) Hrun).
Defined.

(** X5. When the staging file cannot be opened, the call raises the
    [OSError] of [open]; the request has been made before, nothing is read
    from the response and nothing is written. *)
Theorem open_failure_outcome (E : env) (url : pystr) (data : bytes)
    (w : world) (resp : response) (errno : Z) :
  valid_url E url -> utf8_encode url = Some data ->
  let full := cache_path E data in
  let tmp := staging_path E data in
  files w !! full = None ->
  urlopen E url = inr resp ->
  os_fault E (SysOpen tmp) = Some errno ->
  get_pdf_local_path E url w =
  (Raise (OSError errno),
   {| files := match os_fault E (SysRemove tmp) with
               | None => delete tmp (files w)
               | Some _ => files w
               end;
      events := events w ++
                [EvExists full; EvUrlopen url; EvOpen tmp mode_wb; EvExists tmp] ++
                (if bool_decide (is_Some (files w !! tmp))
                 then [EvExists full; EvRemove tmp] else []) |}).
Proof.
  intros Hv Hu full tmp Hfull Hopen Ho.
  rewrite (run_miss E url w data Hv Hu Hfull). fold full tmp.
  unfold try_finally. rewrite download_unfold, Hopen.
  unfold bind at 1. unfold py_open. rewrite Ho.
  unfold cleanup, bind, os_path_exists, log, ret. cbn [files events].
  destruct (files w !! tmp) as [c|] eqn:Htmp.
  - rewrite bool_decide_eq_true_2 by eauto.
    cbn [files events]. rewrite Hfull.
    rewrite bool_decide_eq_false_2 by (intros [? ?]; discriminate).
    cbn [negb]. unfold try_except_OSError, os_remove, log, set_files.
    cbn [files events]. rewrite Htmp.
    destruct (os_fault E (SysRemove tmp)); cbn; repeat rewrite <- app_assoc;
      reflexivity.
  - rewrite bool_decide_eq_false_2 by (intros [? ?]; discriminate).
    rewrite delete_id by exact Htmp.
    destruct (os_fault E (SysRemove tmp)); cbn; repeat rewrite <- app_assoc;
      reflexivity.
Qed.

Lemma open_failure_outcome_witness :
  let E := env_fault open_fault in
  valid_url E url_doc /\ utf8_encode url_doc = Some data_doc /\
  (get_pdf_local_path E url_doc world_empty).1 = Raise (OSError 13) /\
  files (get_pdf_local_path E url_doc world_empty).2 =
    delete (staging_path E data_doc) (files world_empty).
Proof.
  intros E.
  assert (Hv : valid_url E url_doc) by (split; vm_compute; reflexivity).
  assert (Hu : utf8_encode url_doc = Some data_doc) by (vm_compute; reflexivity).
  assert (Hf : files world_empty !! cache_path E data_doc = None)
    by (vm_compute; reflexivity).
  pose proof (open_failure_outcome E url_doc data_doc world_empty
                {| resp_body := body_doc; resp_fail := None |} 13
                Hv Hu Hf eq_refl eq_refl) as Hrun.
  split; [exact Hv|]. split; [exact Hu|].
  split; [exact (f_equal fst Hrun)|].
  exact (f_equal (fun rw => files rw.2) Hrun).
Defined.

(** X6. When closing the staging file fails, the call raises the [OSError]
    of the close, whatever happened while streaming (a failure of the
    stream is replaced by it), and nothing is published. *)
Theorem close_failure_is_raised (E : env) (url : pystr) (data : bytes)
    (w : world) (resp : response) (errno : Z) :
  valid_url E url -> utf8_encode url = Some data ->
  let full := cache_path E data in
  let tmp := staging_path E data in
  files w !! full = None ->
  urlopen E url = inr resp ->
  os_fault E (SysOpen tmp) = None ->
  os_fault E (SysClose tmp) = Some errno ->
  (get_pdf_local_path E url w).1 = Raise (OSError errno) /\
  files (get_pdf_local_path E url w).2 !! full = None.
Proof.
  intros Hv Hu full tmp Hfull Hopen Ho Hc.
  assert (Hr : (get_pdf_local_path E url w).1 = Raise (OSError errno)).
  { rewrite (run_miss E url w data Hv Hu Hfull). fold full tmp.
    unfold try_finally. rewrite download_unfold, Hopen.
    unfold bind at 1. unfold py_open at 1. rewrite Ho.
    unfold try_finally.
    destruct (stream E resp tmp _) as [r w1].
    unfold file_close. rewrite Hc.
    destruct (cleanup_spec E tmp full (log (EvClose tmp) w1)) as (w2 & Hcl & _).
    rewrite Hcl. reflexivity. }
  split; [exact Hr|].
  pose proof (run_valid E url data w Hv Hu) as H. cbv zeta in H.
  rewrite Hr in H. tauto.
Qed.

Lemma close_failure_is_raised_witness :
  let E := env_reset close_fault in
  valid_url E url_doc /\ utf8_encode url_doc = Some data_doc /\
  resp_fail {| resp_body := ascii_bytes "%PDF-1.4 ex";
               resp_fail := Some ConnectionReset |} = Some ConnectionReset /\
  (get_pdf_local_path E url_doc world_empty).1 = Raise (OSError 28).
Proof.
  intros E.
  assert (Hv : valid_url E url_doc) by (split; vm_compute; reflexivity).
  assert (Hu : utf8_encode url_doc = Some data_doc) by (vm_compute; reflexivity).
  assert (Hf : files world_empty !! cache_path E data_doc = None)
    by (vm_compute; reflexivity).
  split; [exact Hv|]. split; [exact Hu|]. split; [reflexivity|].
  exact (proj1 (close_failure_is_raised E url_doc data_doc world_empty _ 28
                  Hv Hu Hf eq_refl eq_refl eq_refl)).
Defined.

(** X7. When the download is complete and [os.replace] fails, the call
    raises the [OSError] of [os.replace] and the [finally] block deletes
    the complete staging file; when that removal fails too, the staging
    file stays with the whole body. *)
Theorem replace_failure_discards_download (E : env) (url : pystr)
    (data : bytes) (w : world) (resp : response) (errno : Z) :
  valid_url E url -> utf8_encode url = Some data ->
  let full := cache_path E data in
  let tmp := staging_path E data in
  files w !! full = None ->
  urlopen E url = inr resp -> resp_fail resp = None ->
  staging_ok E tmp ->
  os_fault E (SysReplace tmp full) = Some errno ->
  (get_pdf_local_path E url w).1 = Raise (OSError errno) /\
  files (get_pdf_local_path E url w).2 =
    match os_fault E (SysRemove tmp) with
    | None => delete tmp (files w)
    | Some _ => <[tmp := resp_body resp]> (files w)
    end.
Proof.
  intros Hv Hu full tmp Hfull Hopen Hfail (Ho & Hw & Hc) Hrep.
  assert (Hne : tmp <> full) by apply staging_path_ne.
  rewrite (run_miss E url w data Hv Hu Hfull). fold full tmp.
  unfold try_finally. rewrite download_unfold, Hopen.
  pose proof (with_open_spec E resp tmp
                (log (EvUrlopen url) (log (EvExists full) w))) as H.
  cbv zeta in H.
  destruct ((py_open E tmp mode_wb >>
             try_finally (stream E resp tmp) (file_close E tmp))
              (log (EvUrlopen url) (log (EvExists full) w))) as [r w1].
  cbn [fst snd] in H. destruct H as (_ & evs & _ & H).
  destruct r as [[]|e].
  2:{ exfalso. destruct e as [| |e|n]; try contradiction.
      - congruence.
      - destruct H as [H|[[off H]|H]]; congruence. }
  destruct H as (_ & Hfiles & _). cbn [files log] in Hfiles.
  unfold os_replace. rewrite Hrep.
  unfold cleanup, bind, os_path_exists, log. cbn [files events].
  rewrite Hfiles, lookup_insert_eq.
  rewrite bool_decide_eq_true_2 by eauto.
  cbn [files events].
  rewrite lookup_insert_ne by exact Hne. rewrite Hfull.
  rewrite bool_decide_eq_false_2 by (intros [? ?]; discriminate).
  cbn [negb]. unfold try_except_OSError, os_remove, log, set_files.
  cbn [files events]. rewrite lookup_insert_eq.
  destruct (os_fault E (SysRemove tmp)); cbn [fst snd files].
  - split; reflexivity.
  - split; [reflexivity|]. rewrite delete_insert_eq. reflexivity.
Qed.

Lemma replace_failure_discards_download_witness :
  let E := env_fault replace_fault in
  valid_url E url_doc /\ utf8_encode url_doc = Some data_doc /\
  (get_pdf_local_path E url_doc world_empty).1 = Raise (OSError 13) /\
  files (get_pdf_local_path E url_doc world_empty).2 =
    delete (staging_path E data_doc) (files world_empty).
Proof.
  intros E.
  assert (Hv : valid_url E url_doc) by (split; vm_compute; reflexivity).
  assert (Hu : utf8_encode url_doc = Some data_doc) by (vm_compute; reflexivity).
  assert (Hf : files world_empty !! cache_path E data_doc = None)
    by (vm_compute; reflexivity).
  split; [exact Hv|]. split; [exact Hu|].
  exact (replace_failure_discards_download E url_doc data_doc world_empty
           {| resp_body := body_doc; resp_fail := None |} 13
           Hv Hu Hf eq_refl eq_refl
           (conj eq_refl (conj (fun _ => eq_refl) eq_refl)) eq_refl).
Defined.

Lemma file_write_fault E p chunk w c0 errno :
  files w !! p = Some c0 ->
  os_fault E (SysWrite p (length c0)) = Some errno ->
  file_write E p chunk w = (Raise (OSError errno), log (EvWrite p chunk) w).
Proof.
  intros Hp Hf. unfold file_write, log. cbn [files]. rewrite Hp.
  simpl. rewrite Hf. reflexivity.
Qed.

(** The loop stops at the first write that fails. *)
Lemma while_chunk_write_fails E out chunk resp w e w1 :
  chunk <> [] -> file_write E out chunk w = (Raise e, w1) ->
  while_chunk E out chunk resp w = (Raise e, w1).
Proof.
  funelim (while_chunk E out chunk resp w); intros Hne Hfw;
    try contradiction; congruence.
Qed.

(** X16. When the first write to the staging file fails (the disk is
    full, say) and the file can be closed, the call raises the [OSError]
    of the write and nothing is published. *)
Theorem write_failure_is_raised (E : env) (url : pystr) (data : bytes)
    (w : world) (resp : response) (errno : Z) :
  valid_url E url -> utf8_encode url = Some data ->
  let full := cache_path E data in
  let tmp := staging_path E data in
  files w !! full = None ->
  urlopen E url = inr resp -> resp_body resp <> [] ->
  os_fault E (SysOpen tmp) = None ->
  os_fault E (SysWrite tmp 0) = Some errno ->
  os_fault E (SysClose tmp) = None ->
  (get_pdf_local_path E url w).1 = Raise (OSError errno) /\
  files (get_pdf_local_path E url w).2 !! full = None.
Proof.
  intros Hv Hu full tmp Hfull Hopen Hbody Ho Hw Hc.
  assert (Hr : (get_pdf_local_path E url w).1 = Raise (OSError errno)).
  { rewrite (run_miss E url w data Hv Hu Hfull). fold full tmp.
    unfold try_finally. rewrite download_unfold, Hopen.
    unfold bind at 1. unfold py_open at 1. rewrite Ho.
    match goal with
    | |- context [try_finally _ _ ?w0] => set (w1 := w0)
    end.
    assert (Hw1 : files w1 !! tmp = Some []).
    { unfold w1, set_files, log. cbn [files]. apply lookup_insert_eq. }
    unfold try_finally, stream, bind, py_read.
    destruct (resp_read chunk_size resp) as [te|[chunk resp']] eqn:Hread.
    { apply resp_read_inl in Hread. tauto. }
    destruct (resp_read_inr _ _ _ _ Hread) as (Hchunk & _).
    assert (Hne : chunk <> []).
    { intros ->. symmetry in Hchunk.
      apply take_nil_inv in Hchunk; [contradiction|apply chunk_size_pos]. }
    cbn [fst snd].
    rewrite (while_chunk_write_fails E tmp chunk resp' (log (EvRead chunk_size) w1)
               (OSError errno)
               (log (EvWrite tmp chunk) (log (EvRead chunk_size) w1)) Hne).
    2:{ apply (file_write_fault E tmp chunk _ []); [exact Hw1|exact Hw]. }
    unfold file_close. rewrite Hc.
    match goal with
    | |- context [cleanup E tmp full ?w0] =>
        destruct (cleanup_spec E tmp full w0) as (w2 & Hcl & _); rewrite Hcl
    end.
    reflexivity. }
  split; [exact Hr|].
  pose proof (run_valid E url data w Hv Hu) as H. cbv zeta in H.
  rewrite Hr in H. tauto.
Qed.

Lemma write_failure_is_raised_witness :
  let E := env_fault write_fault in
  valid_url E url_doc /\ utf8_encode url_doc = Some data_doc /\
  (get_pdf_local_path E url_doc world_empty).1 = Raise (OSError 28).
Proof.
  intros E.
  assert (Hv : valid_url E url_doc) by (split; vm_compute; reflexivity).
  assert (Hu : utf8_encode url_doc = Some data_doc) by (vm_compute; reflexivity).
  assert (Hf : files world_empty !! cache_path E data_doc = None)
    by (vm_compute; reflexivity).
  split; [exact Hv|]. split; [exact Hu|].
  refine (proj1 (write_failure_is_raised E url_doc data_doc world_empty
                   {| resp_body := body_doc; resp_fail := None |} 28
                   Hv Hu Hf eq_refl _ eq_refl eq_refl eq_refl)).
  discriminate.
Defined.

Lemma bounded_chunks_nil cs : bounded_chunks cs -> concat cs = [] -> cs = [].
Proof.
  intros Hb Hc. destruct cs as [|c cs]; [reflexivity|].
  apply Forall_cons in Hb as [[Hne _] _].
  cbn [concat] in Hc. apply app_eq_nil in Hc as [Hc _]. contradiction.
Qed.

(** X8. A response with an empty body is cached as an empty file: the
    first read returns no bytes, the loop writes nothing, and the empty
    staging file is published and its path returned. *)
Theorem empty_body_is_cached (E : env) (url : pystr) (data : bytes)
    (w : world) (resp : response) :
  valid_url E url -> utf8_encode url = Some data ->
  let full := cache_path E data in
  let tmp := staging_path E data in
  files w !! full = None ->
  urlopen E url = inr resp ->
  resp_body resp = [] -> resp_fail resp = None ->
  staging_ok E tmp -> os_fault E (SysReplace tmp full) = None ->
  get_pdf_local_path E url w =
  (Ok full,
   {| files := <[full := []]> (delete tmp (files w));
      events := events w ++
        [EvExists full; EvUrlopen url; EvOpen tmp mode_wb; EvRead chunk_size;
         EvClose tmp; EvReplace tmp full; EvExists tmp] |}).
Proof.
  intros Hv Hu full tmp Hfull Hopen Hbody Hfail (Ho & Hw & Hc) Hrep.
  assert (Hne : tmp <> full) by apply staging_path_ne.
  rewrite (run_miss E url w data Hv Hu Hfull). fold full tmp.
  pose proof (try_download_spec E url tmp full (log (EvExists full) w) Hne Hfull)
    as H.
  cbv zeta in H.
  destruct (try_finally (download E url tmp full) (cleanup E tmp full)
              (log (EvExists full) w)) as [r w'].
  cbn [fst snd] in H. destruct H as (_ & _ & _ & H).
  destruct r as [[]|e].
  - destruct H as (resp' & cs & Hopen' & _ & Hfiles & Hcat & Hcs & Hev).
    assert (resp' = resp) by congruence. subst resp'.
    rewrite Hbody in Hcat, Hfiles.
    rewrite (bounded_chunks_nil cs Hcs Hcat) in Hev.
    f_equal. rewrite (world_eta w'), Hfiles, Hev.
    unfold log. cbn [files events copy_events List.flat_map app].
    rewrite <- app_assoc. reflexivity.
  - exfalso. destruct H as (_ & _ & H).
    destruct e as [| |te|n]; cbn in H; try contradiction.
    + destruct H as [H|(resp' & H1 & H2)]; congruence.
    + destruct H as [H|[[off H]|[H|H]]]; congruence.
Qed.

Lemma empty_body_is_cached_witness :
  let E := env_empty_body in
  valid_url E url_doc /\ utf8_encode url_doc = Some data_doc /\
  (get_pdf_local_path E url_doc world_empty).1 = Ok (cache_path E data_doc) /\
  files (get_pdf_local_path E url_doc world_empty).2
    !! cache_path E data_doc = Some [].
Proof.
  intros E.
  assert (Hv : valid_url E url_doc) by (split; vm_compute; reflexivity).
  assert (Hu : utf8_encode url_doc = Some data_doc) by (vm_compute; reflexivity).
  assert (Hf : files world_empty !! cache_path E data_doc = None)
    by (vm_compute; reflexivity).
  pose proof (empty_body_is_cached E url_doc data_doc world_empty
                {| resp_body := []; resp_fail := None |}
                Hv Hu Hf eq_refl eq_refl eq_refl
                (conj eq_refl (conj (fun _ => eq_refl) eq_refl)) eq_refl) as Hrun.
  split; [exact Hv|]. split; [exact Hu|].
  split; [exact (f_equal fst Hrun)|].
  rewrite Hrun. cbn [snd files]. apply lookup_insert_eq.
Defined.

(** ** The operations of a call *)










(** ** Validation and encoding *)



Lemma lstrip_app_all (p : N -> bool) (ws s : pystr) :
  forallb p ws = true -> lstrip p (ws ++ s) = lstrip p s.
Proof.
  induction ws as [|c ws IH]; cbn [forallb app lstrip]; [reflexivity|].
  intros H. apply andb_true_iff in H as [Hc Hws]. rewrite Hc. exact (IH Hws).
Qed.

Lemma filter_idem {A} (q : A -> bool) (l : list A) :
  List.filter q (List.filter q l) = List.filter q l.
Proof.
  induction l as [|x l IH]; cbn [List.filter]; [reflexivity|].
  destruct (q x) eqn:Hq; cbn [List.filter]; [rewrite Hq, IH|]; auto.
Qed.

Lemma unsafe_is_c0 c :
  unsafe_url_byte c = true -> whatwg_c0_control_or_space c = true.
Proof.
  unfold unsafe_url_byte, whatwg_c0_control_or_space. intros H.
  apply N.leb_le.
  destruct (N.eqb_spec c 9), (N.eqb_spec c 13), (N.eqb_spec c 10);
    try discriminate; lia.
Qed.

Lemma clean_filter (url : pystr) :
  let q := fun c => negb (unsafe_url_byte c) in
  List.filter q (lstrip whatwg_c0_control_or_space (List.filter q url)) =
  List.filter q (lstrip whatwg_c0_control_or_space url).
Proof.
  intros q. induction url as [|c url IH]; [reflexivity|].
  cbn [List.filter lstrip].
  destruct (whatwg_c0_control_or_space c) eqn:Hp.
  - destruct (q c) eqn:Hq; [|exact IH].
    cbn [lstrip]. rewrite Hp. exact IH.
  - assert (Hq : q c = true).
    { unfold q. destruct (unsafe_url_byte c) eqn:Hu; [|reflexivity].
      apply unsafe_is_c0 in Hu. congruence. }
    rewrite Hq. cbn [lstrip]. rewrite Hp. cbn [List.filter]. rewrite Hq.
    rewrite filter_idem. reflexivity.
Qed.

Lemma urlsplit_scheme_lstrip (ws url : pystr) :
  forallb whatwg_c0_control_or_space ws = true ->
  urlsplit_scheme (ws ++ url) = urlsplit_scheme url.
Proof.
  intros H. unfold urlsplit_scheme. rewrite (lstrip_app_all _ _ _ H).
  reflexivity.
Qed.

Lemma urlsplit_scheme_filter (url : pystr) :
  urlsplit_scheme (List.filter (fun c => negb (unsafe_url_byte c)) url) =
  urlsplit_scheme url.
Proof.
  unfold urlsplit_scheme. rewrite (clean_filter url). reflexivity.
Qed.

(** The [ValueError] of a call depends on what [urlsplit] makes of the URL
    only. *)
Lemma run_ValueError_iff E url w msg :
  (get_pdf_local_path E url w).1 = Raise (ValueError msg) <->
  (let x := urlsplit_scheme url in
   netloc_error E x.2 = Some msg \/
   (netloc_error E x.2 = None /\ http_or_https x.1 = false /\
    msg = unsupported_scheme x.1)).
Proof.
  cbv zeta.
  destruct (netloc_error E (urlsplit_scheme url).2) as [m|] eqn:Hn.
  - rewrite (run_parse_error E url w m Hn). cbn [fst].
    split; [intros [=]; left; congruence|].
    intros [[=]|[[=] _]]. congruence.
  - destruct (http_or_https (urlsplit_scheme url).1) eqn:Hs.
    + split.
      * intros He. exfalso.
        exact (run_not_ValueError E url w msg (conj Hn Hs) He).
      * intros [[=]|(_ & [=] & _)].
    + rewrite (run_scheme_error E url w Hn Hs). cbn [fst]. unfold scheme_of.
      split; [intros [=]; right; auto|].
      intros [[=]|(_ & _ & ->)]. reflexivity.
Qed.

(** X11. The validation does not see leading C0 control characters and
    spaces, nor tabs and line breaks anywhere in the URL: a call raises the
    same [ValueError] with them as without them. *)
Theorem validation_ignores_whitespace (E : env) (ws url : pystr) (w : world)
    (msg : pystr) :
  forallb whatwg_c0_control_or_space ws = true ->
  let stripped := List.filter (fun c => negb (unsafe_url_byte c)) url in
  ((get_pdf_local_path E (ws ++ url) w).1 = Raise (ValueError msg) <->
   (get_pdf_local_path E url w).1 = Raise (ValueError msg)) /\
  ((get_pdf_local_path E stripped w).1 = Raise (ValueError msg) <->
   (get_pdf_local_path E url w).1 = Raise (ValueError msg)).
Proof.
  intros Hws stripped. rewrite !run_ValueError_iff.
  unfold stripped.
  rewrite (urlsplit_scheme_lstrip ws url Hws), (urlsplit_scheme_filter url).
  split; reflexivity.
Qed.

Lemma validation_ignores_whitespace_witness :
  forallb whatwg_c0_control_or_space (lit "  ") = true /\
  (get_pdf_local_path env_ok (lit "  " ++ lit "ftp://host/file") world_empty).1 =
    Raise (ValueError (lit "Unsupported URL scheme: 'ftp'")).
Proof.
  split; [reflexivity|].
  apply (proj1 (validation_ignores_whitespace env_ok (lit "  ")
                  (lit "ftp://host/file") world_empty
                  (lit "Unsupported URL scheme: 'ftp'") eq_refl)).
  vm_compute. reflexivity.
Defined.

(** ** The cache path *)

Lemma is_lower_hex_not_sep c : is_lower_hex c = true -> c <> sep.
Proof. intros H ->. vm_compute in H. discriminate. Qed.

Lemma hexdigest_lower msg : Forall (fun c => is_lower_hex c = true) (hexdigest msg).
Proof. apply hex_lower. Qed.

Lemma cache_filename_no_sep data : ~ In sep (cache_filename data ++ lit ".part").
Proof.
  unfold cache_filename. rewrite <- app_assoc. intros Hin.
  apply in_app_or in Hin. destruct Hin as [Hin|Hin].
  - pose proof (hexdigest_lower data) as Hl.
    rewrite List.Forall_forall in Hl.
    exact (is_lower_hex_not_sep _ (Hl _ Hin) eq_refl).
  - vm_compute in Hin. intuition discriminate.
Qed.

Lemma cache_filename_not_absolute data :
  startswith_sep (cache_filename data) = false.
Proof.
  pose proof (cache_filename_no_sep data) as Hn.
  unfold startswith_sep. destruct (cache_filename data) as [|c s] eqn:Hf.
  - reflexivity.
  - apply N.eqb_neq. intros ->. apply Hn. left. reflexivity.
Qed.

Lemma cache_path_prefix E data :
  cache_path E data = dir_prefix (gettempdir E) ++ cache_filename data.
Proof.
  unfold cache_path, path_join, dir_prefix.
  rewrite cache_filename_not_absolute.
  destruct (_ || _); [reflexivity|]. rewrite <- app_assoc. reflexivity.
Qed.

(** X12. The cache file and the staging file are entries of the temporary
    directory itself: their paths are the directory, a separator unless it
    ends with one, and a name without separator; the name of the cache
    file has 68 characters. So [os.path.join] never drops the directory and
    [os.replace] renames within one directory. *)
Theorem cache_files_directly_in_tempdir (E : env) (data : bytes) :
  cache_path E data = dir_prefix (gettempdir E) ++ cache_filename data /\
  staging_path E data =
    dir_prefix (gettempdir E) ++ (cache_filename data ++ lit ".part") /\
  ~ In sep (cache_filename data ++ lit ".part") /\
  length (cache_filename data) = 68%nat.
Proof.
  split; [apply cache_path_prefix|]. split.
  { unfold staging_path. rewrite cache_path_prefix, <- app_assoc. reflexivity. }
  split; [apply cache_filename_no_sep|].
  unfold cache_filename. rewrite length_app, hexdigest_length. reflexivity.
Qed.

(** hex is injective *)
Lemma hex_digit_inj m n :
  (m < 16)%N -> (n < 16)%N -> hex_digit m = hex_digit n -> m = n.
Proof.
  unfold hex_digit. intros Hm Hn.
  destruct (N.ltb_spec m 10), (N.ltb_spec n 10); lia.
Qed.

Lemma hex_byte_inj a b : hex_byte a = hex_byte b -> a = b.
Proof.
  unfold hex_byte. intros H. injection H as Hhi Hlo.
  pose proof (Byte.to_N_bounded a) as Ha. pose proof (Byte.to_N_bounded b) as Hb.
  apply hex_digit_inj in Hhi;
    [|apply N.Div0.div_lt_upper_bound; lia|apply N.Div0.div_lt_upper_bound; lia].
  apply hex_digit_inj in Hlo; [|apply N.mod_lt; discriminate..].
  assert (Hab : Byte.to_N a = Byte.to_N b).
  { rewrite (N.div_mod (Byte.to_N a) 16), (N.div_mod (Byte.to_N b) 16)
      by discriminate. congruence. }
  assert (Hs : Some a = Some b)
    by (rewrite <- (Byte.of_to_N a), <- (Byte.of_to_N b), Hab; reflexivity).
  congruence.
Qed.

Lemma hex_inj bs1 bs2 : hex bs1 = hex bs2 -> bs1 = bs2.
Proof.
  unfold hex. revert bs2.
  induction bs1 as [|a bs1 IH]; intros [|b bs2]; cbn [List.flat_map];
    try reflexivity; try discriminate.
  intros H. injection H as H1 H2 H3.
  f_equal; [|exact (IH _ H3)].
  apply hex_byte_inj. unfold hex_byte. congruence.
Qed.

Lemma cache_path_inj_digest E d1 d2 :
  cache_path E d1 = cache_path E d2 -> SHA256.digest d1 = SHA256.digest d2.
Proof.
  rewrite !cache_path_prefix. intros H.
  apply app_inv_head in H. unfold cache_filename in H.
  apply app_inv_tail in H. apply hex_inj. exact H.
Qed.

(** X13. Two encoded URLs have the same cache path exactly when their
    SHA-256 digests are equal: the hexadecimal form and the path lose
    nothing of the digest. *)
Theorem cache_path_eq_iff_digest_eq (E : env) (d1 d2 : bytes) :
  cache_path E d1 = cache_path E d2 <-> SHA256.digest d1 = SHA256.digest d2.
Proof.
  split; [apply cache_path_inj_digest|].
  intros H. unfold cache_path, cache_filename, hexdigest. rewrite H.
  reflexivity.
Qed.

Lemma to_N_byte_of_N n : (n < 256)%N -> Byte.to_N (byte_of_N n) = n.
Proof.
  intros Hn. unfold byte_of_N. rewrite N.mod_small by exact Hn.
  destruct (Byte.of_N n) as [b|] eqn:Hb.
  - apply Byte.to_of_N. exact Hb.
  - apply Byte.of_N_None_iff in Hb. lia.
Qed.

Lemma land_shiftl_low b a k : (a < 2 ^ k)%N -> N.land (N.shiftl b k) a = 0%N.
Proof.
  intros Ha. apply N.bits_inj_0. intros n. rewrite N.land_spec.
  destruct (N.lt_ge_cases n k) as [Hlt|Hge].
  - rewrite N.shiftl_spec_low by exact Hlt. reflexivity.
  - rewrite <- (N.mod_small a (2 ^ k)) by exact Ha.
    rewrite N.mod_pow2_bits_high by exact Hge. apply andb_false_r.
Qed.

Lemma lor_shiftl_add b a k :
  (a < 2 ^ k)%N -> N.lor (N.shiftl b k) a = (b * 2 ^ k + a)%N.
Proof.
  intros Ha. pose proof (land_shiftl_low b a k Ha) as Hd.
  rewrite <- N.lxor_lor by exact Hd.
  rewrite <- N.add_nocarry_lxor by exact Hd.
  rewrite N.shiftl_mul_pow2. reflexivity.
Qed.

Lemma byte_cont y :
  (y < 64)%N -> Byte.to_N (byte_of_N (N.lor 0x80 y)) = (128 + y)%N.
Proof.
  intros Hy. change (N.lor 0x80 y) with (N.lor (N.shiftl 2 6) y).
  rewrite (lor_shiftl_add 2 y 6) by exact Hy.
  change (2 * 2 ^ 6)%N with 128%N. apply to_N_byte_of_N. lia.
Qed.

Lemma byte_lead2 x :
  (x < 32)%N -> Byte.to_N (byte_of_N (N.lor 0xC0 x)) = (192 + x)%N.
Proof.
  intros Hx. change (N.lor 0xC0 x) with (N.lor (N.shiftl 6 5) x).
  rewrite (lor_shiftl_add 6 x 5) by exact Hx.
  change (6 * 2 ^ 5)%N with 192%N. apply to_N_byte_of_N. lia.
Qed.

Lemma byte_lead3 x :
  (x < 16)%N -> Byte.to_N (byte_of_N (N.lor 0xE0 x)) = (224 + x)%N.
Proof.
  intros Hx. change (N.lor 0xE0 x) with (N.lor (N.shiftl 14 4) x).
  rewrite (lor_shiftl_add 14 x 4) by exact Hx.
  change (14 * 2 ^ 4)%N with 224%N. apply to_N_byte_of_N. lia.
Qed.

Lemma byte_lead4 x :
  (x < 8)%N -> Byte.to_N (byte_of_N (N.lor 0xF0 x)) = (240 + x)%N.
Proof.
  intros Hx. change (N.lor 0xF0 x) with (N.lor (N.shiftl 30 3) x).
  rewrite (lor_shiftl_add 30 x 3) by exact Hx.
  change (30 * 2 ^ 3)%N with 240%N. apply to_N_byte_of_N. lia.
Qed.

(** The arithmetic of the bit operations of the codec. *)
Ltac utf8_arith :=
  change 0x3F%N with (N.ones 6) in *; change 0x1F%N with (N.ones 5) in *;
  change 0x0F%N with (N.ones 4) in *; change 0x07%N with (N.ones 3) in *;
  rewrite ?N.land_ones, ?N.shiftr_div_pow2 in *;
  change (2 ^ 3)%N with 8%N in *; change (2 ^ 4)%N with 16%N in *;
  change (2 ^ 5)%N with 32%N in *; change (2 ^ 6)%N with 64%N in *;
  change (2 ^ 12)%N with 4096%N in *; change (2 ^ 18)%N with 262144%N in *.

Ltac div_lia := zify; Z.to_euclidean_division_equations; lia.

(** Decoding undoes the encoding of a character. *)
Lemma utf8_decode_encode_char c bs r :
  utf8_encode_char c = Some bs -> utf8_decode_char (bs ++ r) = Some (c, r).
Proof.
  unfold utf8_encode_char.
  destruct (N.ltb_spec c 0x80) as [H1|H1].
  { intros [= <-]. cbn [app utf8_decode_char].
    rewrite to_N_byte_of_N by lia.
    destruct (N.ltb_spec c 0x80); [reflexivity|lia]. }
  destruct (N.ltb_spec c 0x800) as [H2|H2].
  { intros [= <-]. cbn [app utf8_decode_char]. utf8_arith.
    rewrite byte_lead2 by div_lia.
    rewrite byte_cont by div_lia.
    destruct (N.ltb_spec (192 + c / 64) 0x80); [div_lia|].
    destruct (N.ltb_spec (192 + c / 64) 0xE0); [|div_lia].
    f_equal. f_equal.
    rewrite lor_shiftl_add by div_lia.
    change (2 ^ 6)%N with 64%N. div_lia. }
  destruct ((0xD800 <=? c) && (c <=? 0xDFFF))%N; [discriminate|].
  destruct (N.ltb_spec c 0x10000) as [H3|H3].
  { intros [= <-]. cbn [app utf8_decode_char]. utf8_arith.
    rewrite byte_lead3 by div_lia.
    rewrite !byte_cont by div_lia.
    destruct (N.ltb_spec (224 + c / 4096) 0x80); [div_lia|].
    destruct (N.ltb_spec (224 + c / 4096) 0xE0); [div_lia|].
    destruct (N.ltb_spec (224 + c / 4096) 0xF0); [|div_lia].
    f_equal. f_equal.
    rewrite (lor_shiftl_add _ _ 6) by div_lia.
    rewrite (lor_shiftl_add _ _ 12)
      by (change (2 ^ 6)%N with 64%N; change (2 ^ 12)%N with 4096%N; div_lia).
    change (2 ^ 6)%N with 64%N; change (2 ^ 12)%N with 4096%N. div_lia. }
  destruct (N.ltb_spec c 0x110000) as [H4|H4]; [|discriminate].
  intros [= <-]. cbn [app utf8_decode_char]. utf8_arith.
  rewrite byte_lead4 by div_lia.
  rewrite !byte_cont by div_lia.
  destruct (N.ltb_spec (240 + c / 262144) 0x80); [div_lia|].
  destruct (N.ltb_spec (240 + c / 262144) 0xE0); [div_lia|].
  destruct (N.ltb_spec (240 + c / 262144) 0xF0); [div_lia|].
  f_equal. f_equal.
  rewrite (lor_shiftl_add _ _ 6) by div_lia.
  rewrite (lor_shiftl_add _ _ 12)
    by (change (2 ^ 6)%N with 64%N; change (2 ^ 12)%N with 4096%N; div_lia).
  rewrite (lor_shiftl_add _ _ 18)
    by (change (2 ^ 6)%N with 64%N; change (2 ^ 12)%N with 4096%N;
        change (2 ^ 18)%N with 262144%N; div_lia).
  change (2 ^ 6)%N with 64%N; change (2 ^ 12)%N with 4096%N;
    change (2 ^ 18)%N with 262144%N.
  div_lia.
Qed.

(** The UTF-8 encoding is injective. *)
Lemma utf8_encode_inj u1 : forall u2 d,
  utf8_encode u1 = Some d -> utf8_encode u2 = Some d -> u1 = u2.
Proof.
  induction u1 as [|c1 u1 IH]; intros [|c2 u2] d H1 H2;
    cbn [utf8_encode] in H1, H2.
  - reflexivity.
  - exfalso. injection H1 as <-.
    destruct (utf8_encode_char c2) as [b2|] eqn:E2; [|discriminate].
    destruct (utf8_encode u2) as [d2|]; [|discriminate].
    injection H2 as H2.
    pose proof (utf8_decode_encode_char c2 b2 d2 E2) as Hd.
    rewrite H2 in Hd. discriminate.
  - exfalso. injection H2 as <-.
    destruct (utf8_encode_char c1) as [b1|] eqn:E1; [|discriminate].
    destruct (utf8_encode u1) as [d1|]; [|discriminate].
    injection H1 as H1.
    pose proof (utf8_decode_encode_char c1 b1 d1 E1) as Hd.
    rewrite H1 in Hd. discriminate.
  - destruct (utf8_encode_char c1) as [b1|] eqn:E1; [|discriminate].
    destruct (utf8_encode u1) as [d1|] eqn:Hu1; [|discriminate].
    destruct (utf8_encode_char c2) as [b2|] eqn:E2; [|discriminate].
    destruct (utf8_encode u2) as [d2|] eqn:Hu2; [|discriminate].
    injection H1 as H1. injection H2 as H2.
    pose proof (utf8_decode_encode_char c1 b1 d1 E1) as Hd1.
    pose proof (utf8_decode_encode_char c2 b2 d2 E2) as Hd2.
    rewrite H1 in Hd1. rewrite H2 in Hd2.
    rewrite Hd1 in Hd2. injection Hd2 as -> ->.
    f_equal. exact (IH u2 d2 eq_refl Hu2).
Qed.

(** X14. Two calls that return the same path were given the same URL, or
    two URLs whose UTF-8 encodings differ and have the same SHA-256 digest:
    the key is the exact string, and only a collision of the hash makes two
    URLs share a cache file. *)
Theorem same_path_same_url_or_collision (E : env) (u1 u2 p : pystr)
    (w1 w1' w2 w2' : world) :
  get_pdf_local_path E u1 w1 = (Ok p, w1') ->
  get_pdf_local_path E u2 w2 = (Ok p, w2') ->
  u1 = u2 \/
  exists d1 d2,
    utf8_encode u1 = Some d1 /\ utf8_encode u2 = Some d2 /\
    d1 <> d2 /\ SHA256.digest d1 = SHA256.digest d2.
Proof.
  intros H1 H2.
  destruct (run_ok_inv E u1 w1 p w1' H1) as (_ & d1 & Hu1 & Hp1).
  destruct (run_ok_inv E u2 w2 p w2' H2) as (_ & d2 & Hu2 & Hp2).
  destruct (decide (u1 = u2)) as [Heq|Hne]; [left; exact Heq|right].
  exists d1, d2. split; [exact Hu1|]. split; [exact Hu2|]. split.
  - intros ->. apply Hne. exact (utf8_encode_inj u1 u2 d2 Hu1 Hu2).
  - apply (cache_path_inj_digest E). congruence.
Qed.

Lemma same_path_same_url_or_collision_witness :
  (get_pdf_local_path env_ok url_doc world_empty).1 =
  (get_pdf_local_path env_ok url_doc world_cached).1 /\
  (url_doc = url_doc \/
   exists d1 d2,
     utf8_encode url_doc = Some d1 /\ utf8_encode url_doc = Some d2 /\
     d1 <> d2 /\ SHA256.digest d1 = SHA256.digest d2).
Proof.
  destruct (get_pdf_local_path env_ok url_doc world_empty) as [r1 w1'] eqn:H1.
  destruct (get_pdf_local_path env_ok url_doc world_cached) as [r2 w2'] eqn:H2.
  assert (Hr1 : r1 = Ok (cache_path env_ok data_doc))
    by (apply (f_equal fst) in H1; vm_compute in H1; vm_compute;
        symmetry; exact H1).
  assert (Hr2 : r2 = Ok (cache_path env_ok data_doc))
    by (apply (f_equal fst) in H2; vm_compute in H2; vm_compute;
        symmetry; exact H2).
  subst r1 r2. split; [reflexivity|].
  exact (same_path_same_url_or_collision env_ok url_doc url_doc _
           world_empty w1' world_cached w2' H1 H2).
Defined.

Lemma add32_word x y : word32 (SHA256.add32 x y).
Proof. unfold SHA256.add32, SHA256.wrap, word32. apply Z.mod_pos_bound. lia. Qed.

Lemma zip_add_words xs ys : Forall word32 (SHA256.zip_add xs ys).
Proof.
  unfold SHA256.zip_add. apply List.Forall_map, List.Forall_forall.
  intros p _. apply add32_word.
Qed.

Lemma H0_words : Forall word32 SHA256.H0.
Proof.
  apply List.Forall_forall. intros x Hx. unfold word32.
  change (2 ^ 32) with 4294967296.
  cbv [SHA256.H0 In] in Hx.
  repeat (destruct Hx as [<-|Hx]; [lia|]). contradiction.
Qed.

Lemma blocks_words n h bs :
  Forall word32 h -> Forall word32 (SHA256.blocks n h bs).
Proof.
  revert h bs. induction n as [|n IH]; intros h bs Hh; cbn [SHA256.blocks].
  - exact Hh.
  - apply IH. unfold SHA256.compress. apply zip_add_words.
Qed.

Lemma words_word32 msg : Forall word32 (SHA256.words msg).
Proof. unfold SHA256.words. apply blocks_words, H0_words. Qed.

Lemma fold_word_num_bound ws acc :
  Forall word32 ws -> 0 <= acc ->
  0 <= List.fold_left (fun a w => a * 2 ^ 32 + w) ws acc
    < (acc + 1) * 2 ^ (32 * Z.of_nat (length ws)).
Proof.
  intros Hws. revert acc.
  induction Hws as [|w ws Hw _ IH]; intros acc Hacc; cbn [List.fold_left length].
  - rewrite Z.mul_0_r, Z.pow_0_r. lia.
  - unfold word32 in Hw.
    specialize (IH (acc * 2 ^ 32 + w) ltac:(lia)).
    replace (32 * Z.of_nat (S (length ws)))
      with (32 + 32 * Z.of_nat (length ws)) by lia.
    rewrite Z.pow_add_r by lia.
    assert (0 < 2 ^ (32 * Z.of_nat (length ws))) by (apply Z.pow_pos_nonneg; lia).
    change (2 ^ 32) with 4294967296 in *. nia.
Qed.

Lemma word_num_bound ws :
  Forall word32 ws -> length ws = 8%nat -> 0 <= word_num ws < 2 ^ 256.
Proof.
  intros Hws Hlen. pose proof (fold_word_num_bound ws 0 Hws ltac:(lia)) as H.
  rewrite Hlen in H. exact H.
Qed.

Lemma fold_word_num_inj ws1 : forall ws2 acc1 acc2,
  length ws1 = length ws2 -> Forall word32 ws1 -> Forall word32 ws2 ->
  List.fold_left (fun a w => a * 2 ^ 32 + w) ws1 acc1 =
  List.fold_left (fun a w => a * 2 ^ 32 + w) ws2 acc2 ->
  acc1 = acc2 /\ ws1 = ws2.
Proof.
  induction ws1 as [|w1 ws1 IH]; intros [|w2 ws2] acc1 acc2 Hlen H1 H2;
    cbn [List.fold_left length] in *; try discriminate.
  - auto.
  - intros Heq.
    apply Forall_cons in H1 as [Hw1 H1]. apply Forall_cons in H2 as [Hw2 H2].
    destruct (IH ws2 _ _ ltac:(lia) H1 H2 Heq) as [Hacc ->].
    unfold word32 in *. change (2 ^ 32) with 4294967296 in *.
    assert (acc1 = acc2) by lia. subst acc2.
    assert (w1 = w2) by lia. subst w2. auto.
Qed.

Lemma word_num_inj ws1 ws2 :
  length ws1 = length ws2 -> Forall word32 ws1 -> Forall word32 ws2 ->
  word_num ws1 = word_num ws2 -> ws1 = ws2.
Proof.
  intros Hlen H1 H2 Heq.
  exact (proj2 (fold_word_num_inj ws1 ws2 0 0 Hlen H1 H2 Heq)).
Qed.

Lemma utf8_encode_app a b x y :
  utf8_encode a = Some x -> utf8_encode b = Some y ->
  utf8_encode (a ++ b) = Some (x ++ y).
Proof.
  revert x. induction a as [|c a IH]; intros x Ha Hb; cbn [utf8_encode app] in *.
  - injection Ha as <-. exact Hb.
  - destruct (utf8_encode_char c) as [bc|]; [|discriminate].
    destruct (utf8_encode a) as [ba|]; [|discriminate].
    injection Ha as <-. rewrite (IH ba eq_refl Hb), <- app_assoc. reflexivity.
Qed.

Lemma utf8_encode_repeat_a n :
  utf8_encode (List.repeat 97%N n) = Some (List.repeat "a"%byte n).
Proof.
  induction n as [|n IH]; [reflexivity|].
  cbn [List.repeat utf8_encode]. rewrite IH. reflexivity.
Qed.

Lemma utf8_encode_url_a n : utf8_encode (url_a n) = Some (data_a n).
Proof.
  unfold url_a, data_a. apply utf8_encode_app; [reflexivity|].
  apply utf8_encode_repeat_a.
Qed.

Lemma scheme_of_url_a n : http_or_https (scheme_of (url_a n)) = true.
Proof.
  unfold scheme_of, url_a.
  change (lit "http://x/" ++ List.repeat 97%N n)
    with (lit "http" ++ [colon] ++ (lit "//x/" ++ List.repeat 97%N n)).
  rewrite urlsplit_scheme_http by reflexivity. reflexivity.
Qed.

Lemma url_a_inj i j : url_a i = url_a j -> i = j.
Proof.
  intros H. apply (f_equal (@length N)) in H. unfold url_a in H.
  rewrite !length_app, !repeat_length in H. lia.
Qed.

(** X15. The cache file names are not injective on the accepted URLs:
    among the 2^256 + 1 URLs [http://x/], [http://x/a], [http://x/aa], ...
    two have the same name, since a name is determined by one of 2^256
    hash values. *)
Theorem cache_filenames_collide : ~ filenames_injective.
Proof.
  intros Hinj.
  set (f := fun n : nat => Z.to_nat (word_num (SHA256.words (data_a n)))).
  destruct (nat_pigeonhole f (S (Z.to_nat (2 ^ 256))) (Z.to_nat (2 ^ 256)))
    as (i & j & Hij & Hf).
  - apply Nat.lt_succ_diag_r.
  - intros i _. unfold f.
    pose proof (word_num_bound _ (words_word32 (data_a i)) (words_length _)).
    apply Z2Nat.inj_lt; lia.
  - unfold f in Hf.
    pose proof (word_num_bound _ (words_word32 (data_a i)) (words_length _)).
    pose proof (word_num_bound _ (words_word32 (data_a j)) (words_length _)).
    apply Z2Nat.inj in Hf; [|lia..].
    apply word_num_inj in Hf;
      [|rewrite !words_length; reflexivity|apply words_word32..].
    apply (Hinj (url_a i) (url_a j) (data_a i) (data_a j)).
    + apply scheme_of_url_a.
    + apply scheme_of_url_a.
    + apply utf8_encode_url_a.
    + apply utf8_encode_url_a.
    + intros Hu. apply url_a_inj in Hu. lia.
    + unfold cache_filename, hexdigest, SHA256.digest. rewrite Hf. reflexivity.
Qed.
